(** * Recording recommendations: ranking, aggregation and message assembly

    A shallow embedding of
    [listenbrainz_spark/recommendations/recording/recommend.py].

    The Spark SQL operators the script relies on (window numbering, joins,
    grouping with [collect_list], [array_sort] with a comparator) are given
    as list functions in [SparkSQL].  Wherever the engine is free to choose a
    row order, the choice is an explicit argument (a [schedule]), so that
    every statement below holds for every order the engine may pick. *)

From Stdlib Require Import ZArith QArith String List Bool Lia Permutation Sorted.
Import ListNotations.
Local Open Scope Z_scope.

(** ** Spark SQL operators *)

Module SparkSQL.

Section Rows.
Context {A : Type}.

(** Remove the element at position [n]; [None] past the end. *)
Fixpoint pick (n : nat) (l : list A) : option (A * list A) :=
  match l, n with
  | [], _ => None
  | x :: t, O => Some (x, t)
  | x :: t, S n' =>
      match pick n' t with
      | Some (y, r) => Some (y, x :: r)
      | None => None
      end
  end.

(** An arbitrary arrival order of the rows of a partition.  The schedule
    names which remaining row comes next; once it runs out the remaining
    rows keep their order. *)
Definition schedule := list nat.

Fixpoint shuffle (s : schedule) (l : list A) : list A :=
  match s with
  | [] => l
  | i :: s' =>
      match pick (Nat.modulo i (length l)) l with
      | Some (x, r) => x :: shuffle s' r
      | None => l
      end
  end.

(** Stable insertion: [x] goes in front of the first [y] it may precede. *)
Fixpoint insert_by (before : A -> A -> bool) (x : A) (l : list A) : list A :=
  match l with
  | [] => [x]
  | y :: t => if before x y then x :: y :: t else y :: insert_by before x t
  end.

Definition sort_by (before : A -> A -> bool) (l : list A) : list A :=
  fold_right (insert_by before) [] l.

(** [array_sort(arr, (left, right) -> cmp)]: a stable sort under the
    comparator; [left] stays in front of [right] when [cmp left right <= 0]. *)
Definition array_sort (cmp : A -> A -> Z) (l : list A) : list A :=
  sort_by (fun left right => cmp left right <=? 0) l.

(** [row_number()] over one ordered partition, counting from [k]. *)
Fixpoint row_number_from {B : Type} (mk : A -> Z -> B) (k : Z) (l : list A)
  : list B :=
  match l with
  | [] => []
  | x :: t => mk x k :: row_number_from mk (k + 1) t
  end.

End Rows.

(** [SELECT DISTINCT] over one integer column. *)
Definition distinct (l : list Z) : list Z := nodup Z.eq_dec l.

(** [a JOIN b] on a matching predicate: every pair that matches. *)
Definition inner_join {A B C : Type} (on : A -> B -> bool) (mk : A -> B -> C)
  (a : list A) (b : list B) : list C :=
  flat_map (fun x => map (mk x) (filter (on x) b)) a.

(** [a LEFT JOIN b]: a left row without a match is kept once, with nulls. *)
Definition left_join {A B C : Type} (on : A -> B -> bool)
  (mk : A -> option B -> C) (a : list A) (b : list B) : list C :=
  flat_map (fun x =>
              match filter (on x) b with
              | [] => [mk x None]
              | m => map (fun y => mk x (Some y)) m
              end) a.

End SparkSQL.

(** ** Tables

    One record per table or view the script reads or builds, with the column
    names of the source.  Identifiers are integers; a [recording_mbid] is a
    string.  A score is the position of the model's float in Spark SQL's
    total order on floats (in which NaN equals itself and is the largest
    value), so comparing scores the way the query does is comparing
    integers; [float_of_score] below gives the float back.  Columns are not
    nullable, except [latest_listened_at] after the left join. *)

(** View [recommendation]: the model's predictions. *)
Module recommendation.
Record t := mk { spark_user_id : Z; recording_id : Z; prediction : Z }.
End recommendation.

(** CTE [ranked_recommendation]. *)
Module ranked.
Record t := mk { spark_user_id : Z; recording_id : Z; score : Z; rank : Z }.
End ranked.

(** View [recording]: the item metadata. *)
Module recording.
Record t := mk { recording_id : Z; recording_mbid : string }.
End recording.

(** View [user]: the active users. *)
Module user.
Record t := mk { spark_user_id : Z; user_id : Z }.
End user.

(** View [recording_discovery]: the listen history; a timestamp is a number
    of microseconds since the epoch. *)
Module recording_discovery.
Record t := mk { user_id : Z; recording_mbid : string; latest_listened_at : Z }.
End recording_discovery.

(** A candidate set as stored in HDFS. *)
Module candidate.
Record t := mk { spark_user_id : Z; recording_id : Z; user_id : Z }.
End candidate.

(** The rows of the query of [process_recommendations] after its joins. *)
Module joined.
Record t := mk { user_id : Z; recording_mbid : string; score : Z; rank : Z;
                 latest_listened_at : option Z }.
End joined.

(** The struct collected into [recs]. *)
Module rec.
Record t := mk { recording_mbid : string; score : Z;
                 latest_listened_at : option string }.
End rec.

(** A row of the dataframe [process_recommendations] returns. *)
Module recs_row.
Record t := mk { user_id : Z; recs : list rec.t }.
End recs_row.

(** The result of [model.recommendForUserSubset]: per user, the nested
    array of [(recording_id, rating)]. *)
Module raw_recommendation.
Record t := mk { spark_user_id : Z; recommendations : list (Z * Z) }.
End raw_recommendation.

(** Table [model_metadata]. *)
Module model_metadata.
Record t := mk { model_id : string; model_html_file : string;
                 model_created : Z }.
End model_metadata.

(** What the engine and the interpreter decide: how Spark prints a timestamp
    under the pattern [yyyy-MM-dd'T'HH:mm:ss.SSS'Z'], how Python prints a
    float under ['{:.2f}'], and the order in which rows reach the window of
    each [spark_user_id], [collect_list] of each [user_id], the result of the
    [GROUP BY] and the [ORDER BY] over the model metadata. *)
Record Engine := {
  date_format : Z -> string;
  format_2f : Q -> string;
  window_sched : Z -> SparkSQL.schedule;
  collect_sched : Z -> SparkSQL.schedule;
  group_sched : SparkSQL.schedule;
  metadata_sched : SparkSQL.schedule
}.

(** The temporary views a query of [process_recommendations] resolves. *)
Record Catalog := {
  recording_view : list recording.t;
  user_view : list user.t;
  recording_discovery_view : list recording_discovery.t
}.

(** ** The ranking query *)

Module Recommend.
Import SparkSQL.

(** [row_number() OVER (PARTITION BY spark_user_id ORDER BY prediction DESC)],
    for the partition of [u]. *)
Definition window_partition (df : list recommendation.t) (u : Z)
  : list recommendation.t :=
  filter (fun r => recommendation.spark_user_id r =? u) df.

Definition order_by_prediction_desc (s : schedule) (rows : list recommendation.t)
  : list recommendation.t :=
  sort_by (fun a b => recommendation.prediction b <=? recommendation.prediction a)
          (shuffle s rows).

Definition as_ranked (r : recommendation.t) (k : Z) : ranked.t :=
  ranked.mk (recommendation.spark_user_id r) (recommendation.recording_id r)
            (recommendation.prediction r) k.

Definition ranked_partition (eng : Engine) (df : list recommendation.t) (u : Z)
  : list ranked.t :=
  row_number_from as_ranked 1
    (order_by_prediction_desc (window_sched eng u) (window_partition df u)).

Definition ranked_recommendation (eng : Engine) (df : list recommendation.t)
  : list ranked.t :=
  flat_map (ranked_partition eng df)
           (distinct (map recommendation.spark_user_id df)).

(** [JOIN recording r USING (recording_id)] *)
Definition join_recording (rm : list ranked.t) (r : list recording.t)
  : list (ranked.t * string) :=
  inner_join (fun x y => recording.recording_id y =? ranked.recording_id x)
             (fun x y => (x, recording.recording_mbid y)) rm r.

(** [JOIN user u USING (spark_user_id)] *)
Definition join_user (rows : list (ranked.t * string)) (u : list user.t)
  : list (ranked.t * string * Z) :=
  inner_join (fun x y => user.spark_user_id y =? ranked.spark_user_id (fst x))
             (fun x y => (x, user.user_id y)) rows u.

(** [LEFT JOIN recording_discovery rd USING (user_id, recording_mbid)] *)
Definition discovery_matches (x : ranked.t * string * Z)
  (d : recording_discovery.t) : bool :=
  (recording_discovery.user_id d =? snd x)
  && String.eqb (recording_discovery.recording_mbid d) (snd (fst x)).

Definition as_joined (x : ranked.t * string * Z)
  (d : option recording_discovery.t) : joined.t :=
  joined.mk (snd x) (snd (fst x)) (ranked.score (fst (fst x)))
            (ranked.rank (fst (fst x)))
            (option_map recording_discovery.latest_listened_at d).

Definition join_discovery (rows : list (ranked.t * string * Z))
  (rd : list recording_discovery.t) : list joined.t :=
  left_join discovery_matches as_joined rows rd.

(** The [FROM ... WHERE rank <= limit] part of the query. *)
Definition joined_rows (eng : Engine) (cat : Catalog)
  (df : list recommendation.t) (limit : Z) : list joined.t :=
  filter (fun j => joined.rank j <=? limit)
    (join_discovery
       (join_user (join_recording (ranked_recommendation eng df)
                                  (recording_view cat))
                  (user_view cat))
       (recording_discovery_view cat)).

(** [struct(recording_mbid, score, date_format(latest_listened_at, ...))] *)
Definition as_struct (eng : Engine) (j : joined.t) : rec.t :=
  rec.mk (joined.recording_mbid j) (joined.score j)
         (option_map (date_format eng) (joined.latest_listened_at j)).

(** The comparator handed to [array_sort]. *)
Definition score_desc (left right : rec.t) : Z :=
  if rec.score right <? rec.score left then -1
  else if rec.score left <? rec.score right then 1
  else 0.

Definition group_rows (rows : list joined.t) (uid : Z) : list joined.t :=
  filter (fun j => joined.user_id j =? uid) rows.

(** [array_sort(collect_list(struct(...)), cmp)] for the group of [uid]. *)
Definition recs_of_group (eng : Engine) (rows : list joined.t) (uid : Z)
  : list rec.t :=
  array_sort score_desc
    (shuffle (collect_sched eng uid) (map (as_struct eng) (group_rows rows uid))).

(** [SELECT user_id, ... AS recs ... GROUP BY user_id] *)
Definition group_by_user_id (eng : Engine) (rows : list joined.t)
  : list recs_row.t :=
  map (fun uid => recs_row.mk uid (recs_of_group eng rows uid))
      (shuffle (group_sched eng) (distinct (map joined.user_id rows))).

(** [run_query(query)], with [recommendation_df] registered as the view
    [recommendation]. *)
Definition process_recommendations (eng : Engine) (cat : Catalog)
  (recommendation_df : list recommendation.t) (limit : Z) : list recs_row.t :=
  group_by_user_id eng (joined_rows eng cat recommendation_df limit).

(** ** Exceptions and results *)

Inductive exn : Type :=
| SparkSessionNotInitializedException (msg : string)
| PathNotFoundException (msg : string)
| FileNotFetchedException (msg : string)
| Py4JJavaError (msg : string)
| IndexError
| RecommendationsNotGeneratedException (msg : string)
| EmptyDataframeExcpetion (msg : string).

Inductive result (A : Type) : Type :=
| Ok (a : A)
| Raise (e : exn).
Arguments Ok {A} a.
Arguments Raise {A} e.

Definition bind {A B : Type} (r : result A) (k : A -> result B) : result B :=
  match r with
  | Ok a => k a
  | Raise e => Raise e
  end.

Notation "x <- r ;; k" := (bind r (fun x => k))
  (at level 61, r at next level, right associativity).

(** ** The model *)

(** The two capabilities of a loaded [ALSModel] the script uses.  A candidate
    pair is [(spark_user_id, recording_id)]. *)
Record ALSModel := {
  transform : list (Z * Z) -> list recommendation.t;
  recommendForUserSubset : list Z -> Z -> list raw_recommendation.t
}.

(** Modelled from the spec: [_is_empty_dataframe] of
    [recommendations/recording/candidate_sets.py], which the script imports;
    it tells whether a dataframe has no row. *)
Definition _is_empty_dataframe {A : Type} (df : list A) : bool :=
  match df with
  | [] => true
  | _ :: _ => false
  end.

Definition generate_recommendations (eng : Engine) (cat : Catalog)
  (candidate_set : list (Z * Z)) (model : ALSModel) (limit : Z)
  : result (list recs_row.t) :=
  let recommendations := transform model candidate_set in
  if _is_empty_dataframe recommendations
  then Raise (RecommendationsNotGeneratedException "Recommendations not generated!")
  else Ok (process_recommendations eng cat recommendations limit).

(** [col('user_id').isin(users)] *)
Definition isin (x : Z) (users : list Z) : bool := existsb (Z.eqb x) users.

Definition select_pair (c : candidate.t) : Z * Z :=
  (candidate.spark_user_id c, candidate.recording_id c).

Definition get_candidate_set_rdd_for_user (candidate_set_df : list candidate.t)
  (users : list Z) : result (list (Z * Z)) :=
  let candidate_set_user_df :=
    match users with
    | _ :: _ =>
        map select_pair
            (filter (fun c => isin (candidate.user_id c) users) candidate_set_df)
    | [] => map select_pair candidate_set_df
    end in
  if _is_empty_dataframe candidate_set_user_df
  then Raise (EmptyDataframeExcpetion "Empty Candidate sets!")
  else Ok candidate_set_user_df.

Definition user_eq_dec (a b : user.t) : {a = b} + {a <> b}.
Proof. decide equality; apply Z.eq_dec. Defined.

Definition select_user (c : candidate.t) : user.t :=
  user.mk (candidate.spark_user_id c) (candidate.user_id c).

Definition get_user_name_and_user_id (top_artist_candidate_set_df : list candidate.t)
  (users : list Z) : result (list user.t) :=
  let users_df :=
    if (List.length users =? 0)%nat
    then nodup user_eq_dec (map select_user top_artist_candidate_set_df)
    else nodup user_eq_dec
           (map select_user
                (filter (fun c => isin (candidate.user_id c) users)
                        top_artist_candidate_set_df)) in
  if _is_empty_dataframe users_df
  then Raise (EmptyDataframeExcpetion "No active users found!")
  else Ok users_df.

(** ** Messages *)

(** The value a [defaultdict] entry starts from. *)
Record bundle := {
  top_artist : list rec.t;
  similar_artist : list rec.t;
  raw : list rec.t
}.

Definition default_bundle : bundle :=
  {| top_artist := []; similar_artist := []; raw := [] |}.

(** [user_rec]: a [defaultdict], kept in insertion order as Python does. *)
Definition user_rec_t := list (Z * bundle).

(** [user_rec[k][field] = v], [upd] being the store into the field: the
    entry of [k] is updated in place, or created from the default at the end. *)
Fixpoint setitem (k : Z) (upd : bundle -> bundle) (d : user_rec_t) : user_rec_t :=
  match d with
  | [] => [(k, upd default_bundle)]
  | (k', b) :: t =>
      if k =? k' then (k', upd b) :: t else (k', b) :: setitem k upd t
  end.

Definition set_top_artist (v : list rec.t) (b : bundle) : bundle :=
  {| top_artist := v; similar_artist := similar_artist b; raw := raw b |}.
Definition set_similar_artist (v : list rec.t) (b : bundle) : bundle :=
  {| top_artist := top_artist b; similar_artist := v; raw := raw b |}.
Definition set_raw (v : list rec.t) (b : bundle) : bundle :=
  {| top_artist := top_artist b; similar_artist := similar_artist b; raw := v |}.

(** One of the three loops over [df.toLocalIterator()]: the state is the
    dictionary and the running count. *)
Definition tally (store : list rec.t -> bundle -> bundle)
  (df : list recs_row.t) (user_rec : user_rec_t) : user_rec_t * Z :=
  fold_left (fun st row =>
               (setitem (recs_row.user_id row) (store (recs_row.recs row)) (fst st),
                snd st + 1))
            df (user_rec, 0).

Inductive message : Type :=
| cf_recommendations_recording_recommendations
    (user_id : Z) (top_artist similar_artist raw : list rec.t)
    (model_id model_url : string)
| cf_recommendations_recording_mail
    (active_user_count top_artist_user_count similar_artist_user_count
       raw_user_count : Z) (total_time : string).

Definition bundle_message (model_id model_html_file : string)
  (item : Z * bundle) : message :=
  cf_recommendations_recording_recommendations
    (fst item) (top_artist (snd item)) (similar_artist (snd item))
    (raw (snd item)) model_id
    (String.append "http://michael.metabrainz.org/" model_html_file).

(** [create_messages] is a generator: its body runs the three loops, then
    yields one message per dictionary item and the mail message last.  The
    list is the sequence of values it yields; [total_time] is in seconds. *)
Definition create_messages (eng : Engine) (model_id model_html_file : string)
  (top_artist_recs_df similar_artist_recs_df raw_recs_df : list recs_row.t)
  (active_user_count : Z) (total_time : Q) : list message :=
  let '(user_rec, top_artist_rec_user_count) :=
    tally set_top_artist top_artist_recs_df [] in
  let '(user_rec, similar_artist_rec_user_count) :=
    tally set_similar_artist similar_artist_recs_df user_rec in
  let '(user_rec, raw_rec_user_count) :=
    tally set_raw raw_recs_df user_rec in
  map (bundle_message model_id model_html_file) user_rec
  ++ [cf_recommendations_recording_mail
        active_user_count top_artist_rec_user_count
        similar_artist_rec_user_count raw_rec_user_count
        (format_2f eng (total_time / 3600)%Q)].

(** The [try ... except ...: logger.error(...); raise] around the two calls
    logs and lets the exception through, so the result is that of the calls. *)
Definition get_recommendations_for_candidate_set (eng : Engine) (cat : Catalog)
  (model : ALSModel) (candidate_set_df : list candidate.t) (limit : Z)
  (users : list Z) : result (list recs_row.t) :=
  candidate_subset <- get_candidate_set_rdd_for_user candidate_set_df users ;;
  generate_recommendations eng cat candidate_subset model limit.

(** [SELECT spark_user_id, rec.recording_id, rec.rating AS prediction] over
    [explode(recommendations)]. *)
Definition expanded_recs (raw_recommendations : list raw_recommendation.t)
  : list recommendation.t :=
  flat_map (fun row =>
              map (fun rec => recommendation.mk
                                (raw_recommendation.spark_user_id row)
                                (fst rec) (snd rec))
                  (raw_recommendation.recommendations row))
           raw_recommendations.

Definition get_raw_recommendations (eng : Engine) (cat : Catalog)
  (model : ALSModel) (limit : Z) (users_df : list user.t)
  : result (list recs_row.t) :=
  let raw_recommendations :=
    recommendForUserSubset model (map user.spark_user_id users_df) limit in
  let recommendations := expanded_recs raw_recommendations in
  Ok (process_recommendations eng cat recommendations limit).

Definition get_user_count (df : list recs_row.t) : Z :=
  Z.of_nat (List.length (distinct (map recs_row.user_id df))).

(** ** The run *)

(** The paths of [listenbrainz_spark.path] the script reads, each with the
    schema of its files. *)
Inductive hdfs_path : Type :=
| RECOMMENDATION_RECORDINGS_DATAFRAME
| RECOMMENDATION_RECORDING_TOP_ARTIST_CANDIDATE_SET
| RECOMMENDATION_RECORDING_SIMILAR_ARTIST_CANDIDATE_SET
| RECORDING_DISCOVERY
| RECOMMENDATION_RECORDING_MODEL_METADATA.

Definition schema (p : hdfs_path) : Type :=
  match p with
  | RECOMMENDATION_RECORDINGS_DATAFRAME => recording.t
  | RECOMMENDATION_RECORDING_TOP_ARTIST_CANDIDATE_SET => candidate.t
  | RECOMMENDATION_RECORDING_SIMILAR_ARTIST_CANDIDATE_SET => candidate.t
  | RECORDING_DISCOVERY => recording_discovery.t
  | RECOMMENDATION_RECORDING_MODEL_METADATA => model_metadata.t
  end.

(** What the run finds outside the script: the session bootstrap, the files
    in HDFS, the stored models, and the successive readings of
    [time.monotonic()]. *)
Record World := {
  init_spark_session : string -> result unit;
  read_files_from_HDFS : forall p : hdfs_path, result (list (schema p));
  get_model_path : string -> string;
  ALSModel_load : string -> result ALSModel;
  monotonic : nat -> Q
}.

(** [ORDER BY model_created DESC LIMIT 1], then [.collect()[0]]. *)
Definition get_most_recent_model_meta (w : World) (eng : Engine)
  : result (string * string) :=
  model_metadata <- read_files_from_HDFS w RECOMMENDATION_RECORDING_MODEL_METADATA ;;
  match sort_by (fun a b => model_metadata.model_created b
                            <=? model_metadata.model_created a)
                (shuffle (metadata_sched eng) model_metadata) with
  | meta :: _ =>
      Ok (model_metadata.model_id meta, model_metadata.model_html_file meta)
  | [] => Raise IndexError
  end.

Definition load_model (w : World) (model_id : string) : result ALSModel :=
  let dest_path := get_model_path w model_id in
  ALSModel_load w dest_path.

(** The limits are integers and [users] is a list.  Logging, [persist],
    [unpersist] and the [count] that forces the recordings leave every value
    as it is; an [except] clause of [main] logs and raises again.  The
    readings of the clock are numbered in the order of the calls.  Every
    [raise] of the script is reached while [main] runs (the emptiness tests
    are Spark actions), before [create_messages] is called; the generator it
    returns yields nothing before its three loops are over. *)
Definition main (w : World) (eng : Engine)
  (recommendation_top_artist_limit recommendation_similar_artist_limit
     recommendation_raw_limit : Z) (users : list Z) : result (list message) :=
  _ <- init_spark_session w "Recommendations" ;;
  recordings_df <- read_files_from_HDFS w RECOMMENDATION_RECORDINGS_DATAFRAME ;;
  top_artist_candidate_set_df <-
    read_files_from_HDFS w RECOMMENDATION_RECORDING_TOP_ARTIST_CANDIDATE_SET ;;
  similar_artist_candidate_set_df <-
    read_files_from_HDFS w RECOMMENDATION_RECORDING_SIMILAR_ARTIST_CANDIDATE_SET ;;
  recording_discovery <- read_files_from_HDFS w RECORDING_DISCOVERY ;;
  meta <- get_most_recent_model_meta w eng ;;
  let '(model_id, model_html_file) := meta in
  model <- load_model w model_id ;;
  let ts_initial := monotonic w 0 in
  users_df <- get_user_name_and_user_id top_artist_candidate_set_df users ;;
  let active_user_count := Z.of_nat (List.length users_df) in
  let cat := {| recording_view := recordings_df;
                user_view := users_df;
                recording_discovery_view := recording_discovery |} in
  top_artist_recs_df <-
    get_recommendations_for_candidate_set
      eng cat model top_artist_candidate_set_df
      recommendation_top_artist_limit users ;;
  similar_artist_recs_df <-
    get_recommendations_for_candidate_set
      eng cat model similar_artist_candidate_set_df
      recommendation_similar_artist_limit users ;;
  raw_recs_df <-
    get_raw_recommendations eng cat model recommendation_raw_limit users_df ;;
  let total_time := (monotonic w 4 - ts_initial)%Q in
  Ok (create_messages eng model_id model_html_file top_artist_recs_df
                      similar_artist_recs_df raw_recs_df active_user_count
                      total_time).

End Recommend.

(** * Notions used in the statements *)

Import SparkSQL Recommend.

(** Every adjacent pair of a list is in non-increasing order of score. *)
Definition non_increasing (l : list rec.t) : Prop :=
  forall (i : nat) (a b : rec.t),
    nth_error l i = Some a -> nth_error l (S i) = Some b ->
    rec.score a >= rec.score b.

(** The users of a recommendations dataframe, one entry per row. *)
Definition users_of (df : list recs_row.t) : list Z := map recs_row.user_id df.

(** The [recs] of the last row of [u] in [df], starting from [init]. *)
Definition last_recs_from (u : Z) (df : list recs_row.t) (init : list rec.t)
  : list rec.t :=
  fold_left (fun acc row => if recs_row.user_id row =? u
                            then recs_row.recs row else acc) df init.

Definition last_recs (u : Z) (df : list recs_row.t) : list rec.t :=
  last_recs_from u df [].

(** Reading the dictionary. *)
Definition keys (d : user_rec_t) : list Z := map fst d.

Fixpoint getitem (k : Z) (d : user_rec_t) : option bundle :=
  match d with
  | [] => None
  | (k', b) :: t => if k =? k' then Some b else getitem k t
  end.

(** What [user_rec[k]] reads: the entry, or the default of the [defaultdict]. *)
Definition bundle_of (k : Z) (d : user_rec_t) : bundle :=
  match getitem k d with
  | Some b => b
  | None => default_bundle
  end.

(** The dictionary after the loop of one source. *)
Definition store_rows (store : list rec.t -> bundle -> bundle)
  (df : list recs_row.t) (d : user_rec_t) : user_rec_t :=
  fold_left (fun d row => setitem (recs_row.user_id row)
                                  (store (recs_row.recs row)) d) df d.

(** The dictionary [create_messages] iterates over. *)
Definition user_rec_of (top_artist_recs_df similar_artist_recs_df raw_recs_df
                          : list recs_row.t) : user_rec_t :=
  store_rows set_raw raw_recs_df
    (store_rows set_similar_artist similar_artist_recs_df
       (store_rows set_top_artist top_artist_recs_df [])).

Definition is_mail (m : message) : bool :=
  match m with
  | cf_recommendations_recording_mail _ _ _ _ _ => true
  | _ => false
  end.

Definition is_message_for (u : Z) (m : message) : bool :=
  match m with
  | cf_recommendations_recording_recommendations v _ _ _ _ _ => v =? u
  | _ => false
  end.

(** The per-user messages of a sequence that are addressed to [u]. *)
Definition messages_for (u : Z) (msgs : list message) : list message :=
  filter (is_message_for u) msgs.

Definition model_url (model_html_file : string) : string :=
  String.append "http://michael.metabrainz.org/" model_html_file.

(** The fields of a per-user message; the mail message has none of them. *)
Definition message_user_id (m : message) : option Z :=
  match m with
  | cf_recommendations_recording_recommendations u _ _ _ _ _ => Some u
  | _ => None
  end.

Definition message_top_artist (m : message) : option (list rec.t) :=
  match m with
  | cf_recommendations_recording_recommendations _ t _ _ _ _ => Some t
  | _ => None
  end.

Definition message_similar_artist (m : message) : option (list rec.t) :=
  match m with
  | cf_recommendations_recording_recommendations _ _ s _ _ _ => Some s
  | _ => None
  end.

Definition message_raw (m : message) : option (list rec.t) :=
  match m with
  | cf_recommendations_recording_recommendations _ _ _ r _ _ => Some r
  | _ => None
  end.

(** The three user counts of a mail message. *)
Definition mail_user_counts (m : message) : option (Z * Z * Z) :=
  match m with
  | cf_recommendations_recording_mail _ t s r _ => Some (t, s, r)
  | _ => None
  end.

(** Each source keeps, for a user, the list of the user's last row. *)
Definition keeps_last_row (field : message -> option (list rec.t))
  (df : list recs_row.t) (msgs : list message) : Prop :=
  forall (l1 : list recs_row.t) (row : recs_row.t) (l2 : list recs_row.t),
    df = l1 ++ row :: l2 ->
    ~ In (recs_row.user_id row) (users_of l2) ->
    map field (messages_for (recs_row.user_id row) msgs)
    = [Some (recs_row.recs row)].

(** Following the spec: [restrict(candidateTable, requestedUsers)] is the
    projection of the whole table when no user is requested, and of the rows
    of the requested users otherwise. *)
Definition restrict_spec (candidateTable : list candidate.t)
  (requestedUsers : list Z) : list (Z * Z) :=
  match requestedUsers with
  | [] => map select_pair candidateTable
  | _ :: _ =>
      map select_pair
          (filter (fun c => if in_dec Z.eq_dec (candidate.user_id c) requestedUsers
                            then true else false) candidateTable)
  end.

(** The stages of [main] that can end a run, each with what makes it fail.
    A later stage is described on the values the earlier ones produced. *)
Inductive stage_fails (w : World) (eng : Engine) (users : list Z) : Prop :=
| session_not_initialized (e : exn) :
    init_spark_session w "Recommendations" = Raise e ->
    stage_fails w eng users
| dataset_unavailable (p : hdfs_path) (e : exn) :
    read_files_from_HDFS w p = Raise e ->
    stage_fails w eng users
| no_model_metadata :
    read_files_from_HDFS w RECOMMENDATION_RECORDING_MODEL_METADATA = Ok [] ->
    stage_fails w eng users
| model_load_fault (model_id model_html_file : string) (e : exn) :
    get_most_recent_model_meta w eng = Ok (model_id, model_html_file) ->
    load_model w model_id = Raise e ->
    stage_fails w eng users
| no_active_users (top_artist_candidate_set_df : list candidate.t) (e : exn) :
    read_files_from_HDFS w RECOMMENDATION_RECORDING_TOP_ARTIST_CANDIDATE_SET
    = Ok top_artist_candidate_set_df ->
    get_user_name_and_user_id top_artist_candidate_set_df users = Raise e ->
    stage_fails w eng users
| empty_top_artist_candidate_set (candidate_set_df : list candidate.t) (e : exn) :
    read_files_from_HDFS w RECOMMENDATION_RECORDING_TOP_ARTIST_CANDIDATE_SET
    = Ok candidate_set_df ->
    get_candidate_set_rdd_for_user candidate_set_df users = Raise e ->
    stage_fails w eng users
| empty_similar_artist_candidate_set (candidate_set_df : list candidate.t)
    (e : exn) :
    read_files_from_HDFS w RECOMMENDATION_RECORDING_SIMILAR_ARTIST_CANDIDATE_SET
    = Ok candidate_set_df ->
    get_candidate_set_rdd_for_user candidate_set_df users = Raise e ->
    stage_fails w eng users
| top_artist_recommendations_not_generated
    (candidate_set_df : list candidate.t) (candidate_subset : list (Z * Z))
    (model_id model_html_file : string) (model : ALSModel) :
    read_files_from_HDFS w RECOMMENDATION_RECORDING_TOP_ARTIST_CANDIDATE_SET
    = Ok candidate_set_df ->
    get_candidate_set_rdd_for_user candidate_set_df users = Ok candidate_subset ->
    get_most_recent_model_meta w eng = Ok (model_id, model_html_file) ->
    load_model w model_id = Ok model ->
    transform model candidate_subset = [] ->
    stage_fails w eng users
| similar_artist_recommendations_not_generated
    (candidate_set_df : list candidate.t) (candidate_subset : list (Z * Z))
    (model_id model_html_file : string) (model : ALSModel) :
    read_files_from_HDFS w RECOMMENDATION_RECORDING_SIMILAR_ARTIST_CANDIDATE_SET
    = Ok candidate_set_df ->
    get_candidate_set_rdd_for_user candidate_set_df users = Ok candidate_subset ->
    get_most_recent_model_meta w eng = Ok (model_id, model_html_file) ->
    load_model w model_id = Ok model ->
    transform model candidate_subset = [] ->
    stage_fails w eng users.

(** ** Key constraints on the views

    What the ranking needs from the views to return the first [limit]
    predictions of a user, no fewer and no more. *)

(** The recording [rid] has exactly one metadata row. *)
Definition has_one_metadata_row (cat : Catalog) (rid : Z) : Prop :=
  List.length (filter (fun y => recording.recording_id y =? rid)
                      (recording_view cat)) = 1%nat.

(** The spark user [su] has the single identity [uid], shared with nobody. *)
Definition has_identity (cat : Catalog) (su uid : Z) : Prop :=
  filter (fun u => user.spark_user_id u =? su) (user_view cat) = [user.mk su uid]
  /\ forall u, In u (user_view cat) -> user.user_id u = uid ->
               user.spark_user_id u = su.

(** The listen history has at most one row for [uid] and a recording. *)
Definition listened_at_most_once (cat : Catalog) (uid : Z) : Prop :=
  forall m : string,
    (List.length
       (filter (fun d => (recording_discovery.user_id d =? uid)%Z
                         && String.eqb (recording_discovery.recording_mbid d) m)
               (recording_discovery_view cat)) <= 1)%nat.

(** The number of predictions of a spark user. *)
Definition prediction_count (df : list recommendation.t) (su : Z) : Z :=
  Z.of_nat (List.length (window_partition df su)).

(** The rows the three joins make of one ranked row. *)
Definition expand (cat : Catalog) (x : ranked.t) : list joined.t :=
  join_discovery
    (join_user (join_recording [x] (recording_view cat)) (user_view cat))
    (recording_discovery_view cat).

(** ** Scores as floats

    The [score] and [prediction] columns hold binary32 floats; the tables
    above hold, for each, its position in the order Spark SQL sorts and
    compares floats by.  Counted in units of [2^-149] every finite float is
    an integer; the infinities stand at [2^277] and [-2^277], just beyond the
    largest finite float; NaN, which Spark puts above every number and takes
    as equal to itself, stands at [2^277 + 1]. *)

Inductive float32 : Type :=
| NaN
| number (v : Z).

Definition infinity_position : Z := 2 ^ 277.

Definition nan_position : Z := infinity_position + 1.

Definition position (x : float32) : Z :=
  match x with
  | NaN => nan_position
  | number v => v
  end.

(** The float a score of a table stands for. *)
Definition float_of_score (p : Z) : float32 :=
  if infinity_position <? p then NaN else number p.

(** [a >= b] on floats as IEEE 754 and Python have it: false as soon as one
    side is NaN. *)
Definition float_ge (a b : float32) : bool :=
  match a, b with
  | number x, number y => y <=? x
  | _, _ => false
  end.

(** [a >= b] in Spark SQL's order: NaN is above every number. *)
Definition spark_ge (a b : float32) : bool :=
  match a, b with
  | NaN, _ => true
  | number _, NaN => false
  | number x, number y => y <=? x
  end.

(** [list[i].score >= list[i+1].score] for every adjacent pair, on the
    floats of the list. *)
Definition non_increasing_float (l : list rec.t) : Prop :=
  forall (i : nat) (a b : rec.t),
    nth_error l i = Some a -> nth_error l (S i) = Some b ->
    float_ge (float_of_score (rec.score a)) (float_of_score (rec.score b))
    = true.

(** Every adjacent pair is in non-increasing order for Spark, and for IEEE
    as well when its first score is not NaN. *)
Definition non_increasing_for_spark (l : list rec.t) : Prop :=
  forall (i : nat) (a b : rec.t),
    nth_error l i = Some a -> nth_error l (S i) = Some b ->
    spark_ge (float_of_score (rec.score a)) (float_of_score (rec.score b))
    = true
    /\ (float_of_score (rec.score a) <> NaN ->
        float_ge (float_of_score (rec.score a)) (float_of_score (rec.score b))
        = true).

(** ** Sample inputs *)

Definition sample_engine : Engine :=
  {| date_format := fun _ => "2021-01-01T00:00:00.000Z"%string;
     format_2f := fun _ => "0.00"%string;
     window_sched := fun _ => [];
     collect_sched := fun _ => [];
     group_sched := [];
     metadata_sched := [] |}.

Definition rec_D : rec.t := rec.mk "D" 7 None.
Definition rec_E : rec.t := rec.mk "E" 6 None.
Definition rec_F : rec.t := rec.mk "F" 4 None.

(** A user present in the raw source only. *)
Definition sample_raw_only : list recs_row.t := [recs_row.mk 2 [rec_D]].

(** A source with two rows for the same user. *)
Definition sample_twice : list recs_row.t :=
  [recs_row.mk 1 [rec_E]; recs_row.mk 1 [rec_F]].

(** A model that scores every candidate pair with the recording id and
    recommends nothing by itself. *)
Definition sample_model : ALSModel :=
  {| transform := map (fun p => recommendation.mk (fst p) (snd p) (snd p));
     recommendForUserSubset := fun _ _ => [] |}.

(** A model that produces no prediction at all. *)
Definition silent_model : ALSModel :=
  {| transform := fun _ => [];
     recommendForUserSubset := fun _ _ => [] |}.

Definition sample_catalog : Catalog :=
  {| recording_view := [recording.mk 10 "A"; recording.mk 11 "B"];
     user_view := [user.mk 1 100];
     recording_discovery_view := [] |}.

Definition sample_files (similar_artist : list candidate.t) (p : hdfs_path)
  : result (list (schema p)) :=
  match p with
  | RECOMMENDATION_RECORDINGS_DATAFRAME =>
      Ok [recording.mk 10 "A"; recording.mk 11 "B"]
  | RECOMMENDATION_RECORDING_TOP_ARTIST_CANDIDATE_SET =>
      Ok [candidate.mk 1 10 100; candidate.mk 1 11 100]
  | RECOMMENDATION_RECORDING_SIMILAR_ARTIST_CANDIDATE_SET => Ok similar_artist
  | RECORDING_DISCOVERY => Ok []
  | RECOMMENDATION_RECORDING_MODEL_METADATA =>
      Ok [model_metadata.mk "m" "m.html" 1]
  end.

(** A world in which every stage succeeds when the similar-artist candidate
    set has a row. *)
Definition sample_world (similar_artist : list candidate.t) : World :=
  {| init_spark_session := fun _ => Ok tt;
     read_files_from_HDFS := sample_files similar_artist;
     get_model_path := fun model_id => model_id;
     ALSModel_load := fun _ => Ok sample_model;
     monotonic := fun _ => 0%Q |}.

(** Three predictions of one user, all with metadata (scores 9, 5, 3). *)
Definition sample_predictions : list recommendation.t :=
  [recommendation.mk 1 12 3; recommendation.mk 1 10 9; recommendation.mk 1 11 5].

Definition sample_catalog_three : Catalog :=
  {| recording_view := [recording.mk 10 "A"; recording.mk 11 "B";
                        recording.mk 12 "C"];
     user_view := [user.mk 1 100];
     recording_discovery_view := [recording_discovery.mk 100 "B" 5] |}.

(** Two predictions, the second for a recording without metadata. *)
Definition sample_missing_metadata : list recommendation.t :=
  [recommendation.mk 1 10 9; recommendation.mk 1 12 5].

(** Two recordings that share one mbid. *)
Definition sample_catalog_shared_mbid : Catalog :=
  {| recording_view := [recording.mk 10 "A"; recording.mk 11 "A"];
     user_view := [user.mk 1 100];
     recording_discovery_view := [] |}.

Definition sample_two_recordings : list recommendation.t :=
  [recommendation.mk 1 10 9; recommendation.mk 1 11 5].

(** A model whose own top-N for user 3 is the recordings 10 and 11. *)
Definition nested_model : ALSModel :=
  {| transform := fun _ => [];
     recommendForUserSubset :=
       fun _ _ => [raw_recommendation.mk 3 [(10, 6); (11, 4)]] |}.

(** Two predictions of one user, the first with a NaN score. *)
Definition sample_nan_predictions : list recommendation.t :=
  [recommendation.mk 1 11 478; recommendation.mk 1 10 nan_position].

(** * Properties *)

(** ** The operators keep the rows and sort them *)

Section OperatorFacts.
Context {A : Type}.

Lemma pick_perm (n : nat) (l : list A) (x : A) (r : list A) :
  pick n l = Some (x, r) -> Permutation l (x :: r).
Proof.
  revert n x r; induction l as [|y t IH]; intros n x r; simpl.
  - destruct n; discriminate.
  - destruct n as [|n']; simpl.
    + intros [= <- <-]. reflexivity.
    + destruct (pick n' t) as [[z q]|] eqn:E; [|discriminate].
      intros [= <- <-]. rewrite (IH _ _ _ E). apply perm_swap.
Qed.

Lemma shuffle_perm (s : schedule) (l : list A) : Permutation (shuffle s l) l.
Proof.
  revert l; induction s as [|i s IH]; intro l; simpl; [reflexivity|].
  destruct (pick (i mod List.length l)%nat l) as [[x r]|] eqn:E; [|reflexivity].
  rewrite (pick_perm _ _ _ _ E). constructor. apply IH.
Qed.

Lemma insert_by_perm (before : A -> A -> bool) (x : A) (l : list A) :
  Permutation (insert_by before x l) (x :: l).
Proof.
  induction l as [|y t IH]; simpl; [reflexivity|].
  destruct (before x y); [reflexivity|].
  rewrite IH. apply perm_swap.
Qed.

Lemma sort_by_perm (before : A -> A -> bool) (l : list A) :
  Permutation (sort_by before l) l.
Proof.
  induction l as [|x t IH]; simpl; [reflexivity|].
  rewrite insert_by_perm. constructor. exact IH.
Qed.

Lemma array_sort_perm (cmp : A -> A -> Z) (l : list A) :
  Permutation (array_sort cmp l) l.
Proof. apply sort_by_perm. Qed.

Section Sortedness.
Variable R : A -> A -> Prop.
Variable before : A -> A -> bool.
Hypothesis before_true : forall x y, before x y = true -> R x y.
Hypothesis before_false : forall x y, before x y = false -> R y x.

Lemma insert_by_HdRel (y x : A) (l : list A) :
  HdRel R y l -> R y x -> HdRel R y (insert_by before x l).
Proof.
  intros Hl Hx. destruct l as [|z t]; simpl.
  - constructor. exact Hx.
  - destruct (before x z); constructor; [exact Hx|].
    inversion Hl; assumption.
Qed.

Lemma insert_by_Sorted (x : A) (l : list A) :
  Sorted R l -> Sorted R (insert_by before x l).
Proof.
  induction 1 as [|y t Ht IH Hy]; simpl.
  - repeat constructor.
  - destruct (before x y) eqn:E.
    + constructor; [constructor; assumption|]. constructor. auto.
    + constructor; [exact IH|]. apply insert_by_HdRel; auto.
Qed.

Lemma sort_by_Sorted (l : list A) : Sorted R (sort_by before l).
Proof.
  induction l as [|x t IH]; simpl; [constructor|].
  apply insert_by_Sorted, IH.
Qed.

End Sortedness.

Lemma Sorted_adjacent (R : A -> A -> Prop) (l : list A) :
  Sorted R l ->
  forall (i : nat) (a b : A),
    nth_error l i = Some a -> nth_error l (S i) = Some b -> R a b.
Proof.
  induction 1 as [|x t Ht IH Hx]; intros i a b Ha Hb.
  - destruct i; discriminate.
  - destruct i as [|i]; simpl in Ha, Hb.
    + injection Ha as <-. destruct t as [|y t']; [discriminate|].
      simpl in Hb. injection Hb as <-. inversion Hx; assumption.
    + eapply IH; eassumption.
Qed.

Lemma row_number_from_length {B : Type} (mk : A -> Z -> B) (k : Z) (l : list A) :
  List.length (row_number_from mk k l) = List.length l.
Proof.
  revert k; induction l as [|x t IH]; intro k; simpl; [reflexivity|].
  now rewrite IH.
Qed.

End OperatorFacts.

(** ** Ordering of a ranked list *)

Lemma array_sort_score_desc_Sorted (l : list rec.t) :
  Sorted (fun a b => rec.score a >= rec.score b) (array_sort score_desc l).
Proof.
  apply sort_by_Sorted; intros x y; unfold score_desc;
    destruct (rec.score y <? rec.score x) eqn:E1;
    destruct (rec.score x <? rec.score y) eqn:E2; simpl; try discriminate;
    intros _; lia.
Qed.

(** In positions, that is in the order [array_sort] is given: for every
    predictions table, limit, catalog of views and engine order, the scores
    of a returned list never increase from one entry to the next. *)
Lemma process_recommendations_scores_non_increasing
  (eng : Engine) (cat : Catalog) (df : list recommendation.t) (limit : Z) :
  Forall (fun row => non_increasing (recs_row.recs row))
         (process_recommendations eng cat df limit).
Proof.
  unfold process_recommendations, group_by_user_id.
  apply Forall_forall. intros row Hin.
  apply in_map_iff in Hin. destruct Hin as [uid [<- _]]. simpl.
  unfold non_increasing, recs_of_group. intros i a b Ha Hb.
  exact (Sorted_adjacent _ _ (array_sort_score_desc_Sorted _) i a b Ha Hb).
Qed.

(** ** The dictionary of bundles *)

Lemma setitem_In (k k' : Z) (upd : bundle -> bundle) (d : user_rec_t) :
  In k' (keys (setitem k upd d)) <-> k' = k \/ In k' (keys d).
Proof.
  induction d as [|[k0 b] t IH]; simpl.
  - intuition congruence.
  - destruct (Z.eqb_spec k k0) as [->|Hne]; simpl.
    + intuition congruence.
    + fold (keys t) in *. fold (keys (setitem k upd t)). rewrite IH. tauto.
Qed.

Lemma setitem_NoDup (k : Z) (upd : bundle -> bundle) (d : user_rec_t) :
  NoDup (keys d) -> NoDup (keys (setitem k upd d)).
Proof.
  induction d as [|[k0 b] t IH]; simpl; intro Hd.
  - repeat constructor. simpl. tauto.
  - inversion Hd as [|? ? Hnin Ht]; subst.
    destruct (Z.eqb_spec k k0) as [->|Hne]; simpl.
    + constructor; assumption.
    + constructor; [|apply IH, Ht].
      fold (keys (setitem k upd t)). rewrite setitem_In.
      intros [Heq|Hin]; [congruence|contradiction].
Qed.

Lemma bundle_of_setitem_same (k : Z) (upd : bundle -> bundle) (d : user_rec_t) :
  bundle_of k (setitem k upd d) = upd (bundle_of k d).
Proof.
  unfold bundle_of. induction d as [|[k' b] t IH]; simpl.
  - now rewrite Z.eqb_refl.
  - destruct (Z.eqb_spec k k') as [->|Hne]; simpl.
    + now rewrite Z.eqb_refl.
    + destruct (Z.eqb_spec k k'); [congruence|]. exact IH.
Qed.

Lemma bundle_of_setitem_other (k u : Z) (upd : bundle -> bundle) (d : user_rec_t) :
  u <> k -> bundle_of u (setitem k upd d) = bundle_of u d.
Proof.
  intro Hne. unfold bundle_of. induction d as [|[k' b] t IH]; simpl.
  - destruct (Z.eqb_spec u k); [congruence|reflexivity].
  - destruct (Z.eqb_spec k k') as [->|Hkk']; simpl.
    + destruct (Z.eqb_spec u k'); [congruence|reflexivity].
    + destruct (Z.eqb_spec u k'); [reflexivity|exact IH].
Qed.

Lemma store_rows_In (store : list rec.t -> bundle -> bundle)
  (df : list recs_row.t) (d : user_rec_t) (u : Z) :
  In u (keys (store_rows store df d)) <-> In u (users_of df) \/ In u (keys d).
Proof.
  revert d; induction df as [|row t IH]; intro d; simpl; [tauto|].
  unfold store_rows in *. simpl. rewrite IH, setitem_In. intuition congruence.
Qed.

Lemma store_rows_NoDup (store : list rec.t -> bundle -> bundle)
  (df : list recs_row.t) (d : user_rec_t) :
  NoDup (keys d) -> NoDup (keys (store_rows store df d)).
Proof.
  revert d; induction df as [|row t IH]; intros d Hd; simpl; [exact Hd|].
  apply IH, setitem_NoDup, Hd.
Qed.

Lemma store_rows_bundle (store : list rec.t -> bundle -> bundle)
  (df : list recs_row.t) (d : user_rec_t) (u : Z) :
  bundle_of u (store_rows store df d)
  = fold_left (fun b row => if recs_row.user_id row =? u
                            then store (recs_row.recs row) b else b)
              df (bundle_of u d).
Proof.
  revert d; induction df as [|row t IH]; intro d; simpl; [reflexivity|].
  unfold store_rows in *. simpl. rewrite IH. f_equal.
  destruct (Z.eqb_spec (recs_row.user_id row) u) as [<-|Hne].
  - apply bundle_of_setitem_same.
  - apply bundle_of_setitem_other. congruence.
Qed.

Lemma tally_eq (store : list rec.t -> bundle -> bundle)
  (df : list recs_row.t) (d : user_rec_t) :
  tally store df d = (store_rows store df d, Z.of_nat (List.length df)).
Proof.
  unfold tally, store_rows.
  enough (G : forall c,
             fold_left (fun st row =>
                          (setitem (recs_row.user_id row)
                                   (store (recs_row.recs row)) (fst st),
                           snd st + 1)) df (d, c)
             = (fold_left (fun d row => setitem (recs_row.user_id row)
                                          (store (recs_row.recs row)) d) df d,
                c + Z.of_nat (List.length df))).
  { rewrite G. reflexivity. }
  revert d; induction df as [|row t IH]; intros d c; simpl fold_left.
  - simpl. now rewrite Z.add_0_r.
  - rewrite IH. simpl fst. simpl snd. f_equal.
    change (List.length (row :: t)) with (S (List.length t)). lia.
Qed.

(** The sequence [create_messages] yields, in closed form. *)
Lemma create_messages_eq (eng : Engine) (model_id model_html_file : string)
  (ta sa rw : list recs_row.t) (active_user_count : Z) (total_time : Q) :
  create_messages eng model_id model_html_file ta sa rw active_user_count total_time
  = map (bundle_message model_id model_html_file) (user_rec_of ta sa rw)
    ++ [cf_recommendations_recording_mail
          active_user_count (Z.of_nat (List.length ta))
          (Z.of_nat (List.length sa)) (Z.of_nat (List.length rw))
          (format_2f eng (total_time / 3600)%Q)].
Proof.
  unfold create_messages, user_rec_of. now rewrite !tally_eq.
Qed.

Section Fields.
Variable store : list rec.t -> bundle -> bundle.
Variable get : bundle -> list rec.t.
Variable u : Z.

Let step (b : bundle) (row : recs_row.t) : bundle :=
  if recs_row.user_id row =? u then store (recs_row.recs row) b else b.

Lemma fold_store_get_same (df : list recs_row.t) (b0 : bundle) :
  (forall v b, get (store v b) = v) ->
  get (fold_left step df b0) = last_recs_from u df (get b0).
Proof.
  intro Hgs. revert b0; induction df as [|row t IH]; intro b0; simpl;
    [reflexivity|].
  unfold last_recs_from in *. simpl. rewrite IH. f_equal. unfold step.
  destruct (recs_row.user_id row =? u); [apply Hgs|reflexivity].
Qed.

Lemma fold_store_get_other (df : list recs_row.t) (b0 : bundle) :
  (forall v b, get (store v b) = get b) ->
  get (fold_left step df b0) = get b0.
Proof.
  intro Hgo. revert b0; induction df as [|row t IH]; intro b0; simpl;
    [reflexivity|].
  rewrite IH. unfold step.
  destruct (recs_row.user_id row =? u); [apply Hgo|reflexivity].
Qed.

End Fields.

Lemma last_recs_from_absent (u : Z) (df : list recs_row.t) (init : list rec.t) :
  ~ In u (users_of df) -> last_recs_from u df init = init.
Proof.
  revert init; induction df as [|row t IH]; intros init Hnin; simpl;
    [reflexivity|].
  simpl in Hnin. unfold last_recs_from in *. simpl.
  destruct (Z.eqb_spec (recs_row.user_id row) u); [tauto|]. apply IH. tauto.
Qed.

Lemma last_recs_from_last (u : Z) (l1 l2 : list recs_row.t) (row : recs_row.t)
  (init : list rec.t) :
  recs_row.user_id row = u -> ~ In u (users_of l2) ->
  last_recs_from u (l1 ++ row :: l2) init = recs_row.recs row.
Proof.
  intros Hu Hnin. unfold last_recs_from. rewrite fold_left_app. simpl.
  rewrite <- Hu at 1. rewrite Z.eqb_refl.
  apply (last_recs_from_absent u l2 _ Hnin).
Qed.

(** The bundle stored for [u] once the three loops are over. *)
Lemma user_rec_of_bundle (ta sa rw : list recs_row.t) (u : Z) :
  bundle_of u (user_rec_of ta sa rw)
  = {| top_artist := last_recs u ta;
       similar_artist := last_recs u sa;
       raw := last_recs u rw |}.
Proof.
  unfold user_rec_of.
  set (d1 := store_rows set_top_artist ta []).
  set (d2 := store_rows set_similar_artist sa d1).
  assert (H1 : bundle_of u d1 = {| top_artist := last_recs u ta;
                                   similar_artist := []; raw := [] |}).
  { unfold d1. rewrite store_rows_bundle.
    set (b := fold_left _ ta _).
    assert (Ht : top_artist b = last_recs u ta)
      by (apply (fold_store_get_same set_top_artist top_artist); reflexivity).
    assert (Hs : similar_artist b = [])
      by (apply (fold_store_get_other set_top_artist similar_artist); reflexivity).
    assert (Hr : raw b = [])
      by (apply (fold_store_get_other set_top_artist raw); reflexivity).
    destruct b; simpl in *; congruence. }
  assert (H2 : bundle_of u d2 = {| top_artist := last_recs u ta;
                                   similar_artist := last_recs u sa;
                                   raw := [] |}).
  { unfold d2. rewrite store_rows_bundle, H1.
    set (b := fold_left _ sa _).
    assert (Ht : top_artist b = last_recs u ta)
      by (apply (fold_store_get_other set_similar_artist top_artist); reflexivity).
    assert (Hs : similar_artist b = last_recs u sa)
      by (apply (fold_store_get_same set_similar_artist similar_artist); reflexivity).
    assert (Hr : raw b = [])
      by (apply (fold_store_get_other set_similar_artist raw); reflexivity).
    destruct b; simpl in *; congruence. }
  rewrite store_rows_bundle, H2.
  set (b := fold_left _ rw _).
  assert (Ht : top_artist b = last_recs u ta)
    by (apply (fold_store_get_other set_raw top_artist); reflexivity).
  assert (Hs : similar_artist b = last_recs u sa)
    by (apply (fold_store_get_other set_raw similar_artist); reflexivity).
  assert (Hr : raw b = last_recs u rw)
    by (apply (fold_store_get_same set_raw raw); reflexivity).
  destruct b; simpl in *; congruence.
Qed.

Lemma user_rec_of_keys (ta sa rw : list recs_row.t) (u : Z) :
  In u (keys (user_rec_of ta sa rw))
  <-> In u (users_of ta) \/ In u (users_of sa) \/ In u (users_of rw).
Proof.
  unfold user_rec_of. rewrite !store_rows_In. simpl. tauto.
Qed.

Lemma user_rec_of_NoDup (ta sa rw : list recs_row.t) :
  NoDup (keys (user_rec_of ta sa rw)).
Proof.
  unfold user_rec_of. do 3 apply store_rows_NoDup. constructor.
Qed.

Lemma messages_for_absent (model_id model_html_file : string) (u : Z)
  (d : user_rec_t) :
  ~ In u (keys d) ->
  messages_for u (map (bundle_message model_id model_html_file) d) = [].
Proof.
  induction d as [|[k b] t IH]; simpl; [reflexivity|].
  intro Hnin. destruct (Z.eqb_spec k u); [tauto|]. apply IH. tauto.
Qed.

Lemma messages_for_present (model_id model_html_file : string) (u : Z)
  (d : user_rec_t) :
  NoDup (keys d) -> In u (keys d) ->
  messages_for u (map (bundle_message model_id model_html_file) d)
  = [bundle_message model_id model_html_file (u, bundle_of u d)].
Proof.
  induction d as [|[k b] t IH]; simpl; [tauto|].
  intros Hd Hin. inversion Hd as [|? ? Hnin Ht]; subst.
  unfold bundle_of. simpl. destruct (Z.eqb_spec k u) as [->|Hne].
  - rewrite Z.eqb_refl. f_equal.
    apply (messages_for_absent model_id model_html_file u t Hnin).
  - destruct (Z.eqb_spec u k); [congruence|].
    destruct Hin as [Heq|Hin]; [congruence|]. apply IH; assumption.
Qed.

(** The per-user messages addressed to a user of some source. *)
Lemma create_messages_for (eng : Engine) (model_id model_html_file : string)
  (ta sa rw : list recs_row.t) (active_user_count : Z) (total_time : Q) (u : Z) :
  In u (users_of ta) \/ In u (users_of sa) \/ In u (users_of rw) ->
  messages_for u (create_messages eng model_id model_html_file ta sa rw
                                  active_user_count total_time)
  = [cf_recommendations_recording_recommendations
       u (last_recs u ta) (last_recs u sa) (last_recs u rw)
       model_id (model_url model_html_file)].
Proof.
  intro Hin. rewrite create_messages_eq. unfold messages_for.
  rewrite filter_app. simpl. rewrite app_nil_r.
  fold (messages_for u (map (bundle_message model_id model_html_file)
                            (user_rec_of ta sa rw))).
  rewrite messages_for_present
    by (try apply user_rec_of_NoDup; apply user_rec_of_keys, Hin).
  rewrite user_rec_of_bundle. reflexivity.
Qed.

(** ** Counting users *)

Lemma distinct_length_le (l : list Z) :
  (List.length (distinct l) <= List.length l)%nat.
Proof.
  unfold distinct. induction l as [|x t IH]; simpl; [lia|].
  destruct (in_dec Z.eq_dec x t); simpl; lia.
Qed.

Lemma distinct_length_eq (l : list Z) :
  List.length (distinct l) = List.length l <-> NoDup l.
Proof.
  split.
  - unfold distinct. induction l as [|x t IH]; simpl; [constructor|].
    destruct (in_dec Z.eq_dec x t) as [Hin|Hnin]; simpl; intro Hlen.
    + pose proof (distinct_length_le t) as Hle. unfold distinct in Hle. lia.
    + constructor; [exact Hnin|]. apply IH. lia.
  - intro Hnd. unfold distinct. now rewrite nodup_fixed_point.
Qed.

Lemma get_user_count_le (df : list recs_row.t) :
  get_user_count df <= Z.of_nat (List.length df).
Proof.
  unfold get_user_count. pose proof (distinct_length_le (map recs_row.user_id df)) as H.
  rewrite length_map in H. lia.
Qed.

Lemma get_user_count_lt (df : list recs_row.t) :
  get_user_count df < Z.of_nat (List.length df) <-> ~ NoDup (users_of df).
Proof.
  unfold get_user_count, users_of.
  pose proof (distinct_length_le (map recs_row.user_id df)) as Hle.
  pose proof (distinct_length_eq (map recs_row.user_id df)) as Heq.
  rewrite length_map in Hle, Heq. split.
  - intros Hlt Hnd. apply Heq in Hnd. lia.
  - intro Hdup. destruct (Z.eq_dec
      (Z.of_nat (List.length (distinct (map recs_row.user_id df))))
      (Z.of_nat (List.length df))) as [E|E]; [|lia].
    exfalso. apply Hdup, Heq. lia.
Qed.

Lemma get_user_count_NoDup (df : list recs_row.t) :
  NoDup (users_of df) -> get_user_count df = Z.of_nat (List.length df).
Proof.
  intro Hnd. pose proof (get_user_count_le df) as Hle.
  pose proof (get_user_count_lt df) as Hlt.
  destruct (Z.eq_dec (get_user_count df) (Z.of_nat (List.length df)));
    [assumption|].
  exfalso. apply Hlt; [lia|exact Hnd].
Qed.

(** The dataframe of [process_recommendations] has one row per user, and no
    row with an empty list. *)
Lemma group_by_user_id_NoDup (eng : Engine) (rows : list joined.t) :
  NoDup (users_of (group_by_user_id eng rows)).
Proof.
  unfold users_of, group_by_user_id. rewrite map_map. simpl. rewrite map_id.
  eapply Permutation_NoDup; [symmetry; apply shuffle_perm|].
  apply NoDup_nodup.
Qed.

Lemma recs_of_group_perm (eng : Engine) (rows : list joined.t) (uid : Z) :
  Permutation (recs_of_group eng rows uid)
              (map (as_struct eng) (group_rows rows uid)).
Proof.
  unfold recs_of_group. rewrite array_sort_perm. apply shuffle_perm.
Qed.

Lemma group_by_user_id_In (eng : Engine) (rows : list joined.t)
  (row : recs_row.t) :
  In row (group_by_user_id eng rows) <->
  In (recs_row.user_id row) (map joined.user_id rows)
  /\ recs_row.recs row = recs_of_group eng rows (recs_row.user_id row).
Proof.
  unfold group_by_user_id. rewrite in_map_iff. split.
  - intros [uid [<- Hin]]. simpl. split; [|reflexivity].
    apply (Permutation_in _ (shuffle_perm _ _)) in Hin.
    apply nodup_In in Hin. exact Hin.
  - intros [Hin Hrecs]. exists (recs_row.user_id row). split.
    + destruct row as [uid recs]. simpl in *. now subst.
    + apply (Permutation_in _ (Permutation_sym (shuffle_perm _ _))).
      apply nodup_In. exact Hin.
Qed.

Lemma group_by_user_id_nonempty (eng : Engine) (rows : list joined.t) :
  Forall (fun row => recs_row.recs row <> []) (group_by_user_id eng rows).
Proof.
  apply Forall_forall. intros row Hin.
  apply group_by_user_id_In in Hin. destruct Hin as [Hin Hrecs].
  rewrite Hrecs. intro Hnil.
  pose proof (recs_of_group_perm eng rows (recs_row.user_id row)) as Hp.
  rewrite Hnil in Hp. apply Permutation_nil in Hp.
  apply map_eq_nil in Hp. apply in_map_iff in Hin.
  destruct Hin as [j [Hj Hjin]].
  assert (Hg : In j (group_rows rows (recs_row.user_id row))).
  { unfold group_rows. apply filter_In. split; [exact Hjin|].
    now apply Z.eqb_eq. }
  rewrite Hp in Hg. exact Hg.
Qed.

Lemma create_messages_mail (eng : Engine) (model_id model_html_file : string)
  (ta sa rw : list recs_row.t) (active_user_count : Z) (total_time : Q) :
  filter is_mail (create_messages eng model_id model_html_file ta sa rw
                                  active_user_count total_time)
  = [cf_recommendations_recording_mail
       active_user_count (Z.of_nat (List.length ta))
       (Z.of_nat (List.length sa)) (Z.of_nat (List.length rw))
       (format_2f eng (total_time / 3600)%Q)].
Proof.
  rewrite create_messages_eq, filter_app. simpl.
  replace (filter is_mail (map (bundle_message model_id model_html_file)
                               (user_rec_of ta sa rw))) with (@nil message);
    [reflexivity|].
  induction (user_rec_of ta sa rw) as [|kv t IH]; simpl; [reflexivity|exact IH].
Qed.

(** ** Aggregation *)

(** C5. A user that appears in at least one of the three source dataframes
    gets exactly one per-user message from [create_messages], and in that
    message the list of every source the user is absent from is the empty
    list. *)
Theorem create_messages_one_bundle_per_user
  (eng : Engine) (model_id model_html_file : string)
  (ta sa rw : list recs_row.t) (active_user_count : Z) (total_time : Q) (u : Z) :
  In u (users_of ta) \/ In u (users_of sa) \/ In u (users_of rw) ->
  exists t s r : list rec.t,
    messages_for u (create_messages eng model_id model_html_file ta sa rw
                                    active_user_count total_time)
    = [cf_recommendations_recording_recommendations
         u t s r model_id (model_url model_html_file)]
    /\ (~ In u (users_of ta) -> t = [])
    /\ (~ In u (users_of sa) -> s = [])
    /\ (~ In u (users_of rw) -> r = []).
Proof.
  intro Hin. exists (last_recs u ta), (last_recs u sa), (last_recs u rw).
  split; [apply create_messages_for, Hin|].
  repeat split; intro Hnin; apply last_recs_from_absent, Hnin.
Qed.

Lemma create_messages_one_bundle_per_user_witness :
  (In 2 (users_of []) \/ In 2 (users_of []) \/ In 2 (users_of sample_raw_only))
  /\ exists t s r : list rec.t,
       messages_for 2 (create_messages sample_engine "m" "m.html" [] []
                                       sample_raw_only 1 1)
       = [cf_recommendations_recording_recommendations
            2 t s r "m" (model_url "m.html")]
       /\ (~ In 2 (users_of []) -> t = [])
       /\ (~ In 2 (users_of []) -> s = [])
       /\ (~ In 2 (users_of sample_raw_only) -> r = []).
Proof.
  split.
  - right; right; left; reflexivity.
  - apply (create_messages_one_bundle_per_user
             sample_engine "m" "m.html" [] [] sample_raw_only 1 1 2).
    right; right; left; reflexivity.
Defined.

(** The three counts of the mail message are the row counts of the three
    dataframes; on dataframes with one row per user they are the numbers of
    distinct users. *)
Lemma create_messages_counts_distinct
  (eng : Engine) (model_id model_html_file : string)
  (ta sa rw : list recs_row.t) (active_user_count : Z) (total_time : Q) :
  NoDup (users_of ta) -> NoDup (users_of sa) -> NoDup (users_of rw) ->
  map mail_user_counts
      (filter is_mail (create_messages eng model_id model_html_file ta sa rw
                                       active_user_count total_time))
  = [Some (get_user_count ta, get_user_count sa, get_user_count rw)].
Proof.
  intros Ht Hs Hr. rewrite create_messages_mail. simpl.
  now rewrite !get_user_count_NoDup.
Qed.

(** C6. In a run the three dataframes handed to [create_messages] come from
    [process_recommendations]; whatever the predictions, limits, views and
    engine order, the mail message then carries, for each source, the number
    of distinct users of that source's dataframe alone, and every such user
    contributes a non-empty list. *)
Theorem run_summary_counts_distinct_users
  (eng : Engine) (cat : Catalog) (model_id model_html_file : string)
  (top_artist_df similar_artist_df raw_df : list recommendation.t)
  (top_artist_limit similar_artist_limit raw_limit : Z)
  (active_user_count : Z) (total_time : Q) :
  let ta := process_recommendations eng cat top_artist_df top_artist_limit in
  let sa := process_recommendations eng cat similar_artist_df similar_artist_limit in
  let rw := process_recommendations eng cat raw_df raw_limit in
  map mail_user_counts
      (filter is_mail (create_messages eng model_id model_html_file ta sa rw
                                       active_user_count total_time))
  = [Some (get_user_count ta, get_user_count sa, get_user_count rw)]
  /\ Forall (fun row => recs_row.recs row <> []) (ta ++ sa ++ rw).
Proof.
  intros ta sa rw. split.
  - apply create_messages_counts_distinct; apply group_by_user_id_NoDup.
  - rewrite !Forall_app. repeat split; apply group_by_user_id_nonempty.
Qed.

(** C8. The sequence yielded by [create_messages] is the per-user messages,
    one for each user of some source and no two for the same user, each with
    the model id and the model url, followed by the mail message, which is
    the only mail message and the last element. *)
Theorem create_messages_bundles_then_mail
  (eng : Engine) (model_id model_html_file : string)
  (ta sa rw : list recs_row.t) (active_user_count : Z) (total_time : Q) :
  exists (bundles : list message) (mail : message),
    create_messages eng model_id model_html_file ta sa rw
                    active_user_count total_time = bundles ++ [mail]
    /\ is_mail mail = true
    /\ Forall (fun m => exists u t s r,
                   m = cf_recommendations_recording_recommendations
                         u t s r model_id (model_url model_html_file)) bundles
    /\ NoDup (map message_user_id bundles)
    /\ (forall u : Z,
          In (Some u) (map message_user_id bundles)
          <-> In u (users_of ta) \/ In u (users_of sa) \/ In u (users_of rw)).
Proof.
  rewrite create_messages_eq. eexists. eexists. split; [reflexivity|].
  split; [reflexivity|].
  assert (Hk : map message_user_id
                   (map (bundle_message model_id model_html_file)
                        (user_rec_of ta sa rw))
               = map Some (keys (user_rec_of ta sa rw))).
  { unfold keys. rewrite !map_map. reflexivity. }
  repeat split.
  - apply Forall_forall. intros m Hm. apply in_map_iff in Hm.
    destruct Hm as [[k b] [<- _]]. unfold bundle_message. simpl.
    now exists k, (top_artist b), (similar_artist b), (raw b).
  - rewrite Hk. apply Finite.Injective_map_NoDup.
    + intros x y [= ->]. reflexivity.
    + apply user_rec_of_NoDup.
  - rewrite Hk. intro Hin. apply in_map_iff in Hin.
    destruct Hin as [k [[= ->] Hin]]. apply user_rec_of_keys, Hin.
  - rewrite Hk. intro Hin. apply in_map. apply user_rec_of_keys, Hin.
Qed.

Lemma create_messages_keeps_last_row
  (eng : Engine) (model_id model_html_file : string)
  (ta sa rw : list recs_row.t) (active_user_count : Z) (total_time : Q) :
  let msgs := create_messages eng model_id model_html_file ta sa rw
                              active_user_count total_time in
  keeps_last_row message_top_artist ta msgs
  /\ keeps_last_row message_similar_artist sa msgs
  /\ keeps_last_row message_raw rw msgs.
Proof.
  assert (Hmem : forall l1 (row : recs_row.t) l2,
             In (recs_row.user_id row) (users_of (l1 ++ row :: l2))).
  { intros. unfold users_of. rewrite map_app. apply in_or_app. right.
    now left. }
  simpl. unfold keeps_last_row.
  repeat split; intros l1 row l2 -> Hnin;
    (rewrite create_messages_for by (pose proof (Hmem l1 row l2); tauto));
    simpl; do 2 f_equal; apply last_recs_from_last; auto.
Qed.

(** C10. Each user count of the mail message is the number of rows of its
    source, so a user with several rows is counted once per row; the per-user
    message keeps, for each source, the list of the user's last row; and a
    count exceeds the number of distinct users exactly when the source has
    two rows for one user. *)
Theorem create_messages_duplicate_rows
  (eng : Engine) (model_id model_html_file : string)
  (ta sa rw : list recs_row.t) (active_user_count : Z) (total_time : Q) :
  let msgs := create_messages eng model_id model_html_file ta sa rw
                              active_user_count total_time in
  map mail_user_counts (filter is_mail msgs)
  = [Some (Z.of_nat (List.length ta), Z.of_nat (List.length sa),
           Z.of_nat (List.length rw))]
  /\ keeps_last_row message_top_artist ta msgs
  /\ keeps_last_row message_similar_artist sa msgs
  /\ keeps_last_row message_raw rw msgs
  /\ Forall (fun df => get_user_count df <= Z.of_nat (List.length df)
                       /\ (get_user_count df < Z.of_nat (List.length df)
                           <-> ~ NoDup (users_of df)))
            [ta; sa; rw].
Proof.
  intro msgs. split; [|split; [|split; [|split]]];
    try apply create_messages_keeps_last_row.
  - unfold msgs. rewrite create_messages_mail. reflexivity.
  - repeat constructor; (apply get_user_count_le || apply get_user_count_lt).
Qed.

(** Two rows for user 1 in the top-artist source: counted twice, and the
    bundle holds the list of the second row. *)
Lemma create_messages_duplicate_rows_witness :
  create_messages sample_engine "m" "m.html" sample_twice [] [] 1 1
  = [cf_recommendations_recording_recommendations
       1 [rec_F] [] [] "m" (model_url "m.html");
     cf_recommendations_recording_mail 1 2 0 0 "0.00"]
  /\ map message_top_artist
         (messages_for 1 (create_messages sample_engine "m" "m.html"
                                          sample_twice [] [] 1 1))
     = [Some [rec_F]]
  /\ get_user_count sample_twice = 1.
Proof.
  split; [reflexivity|]. split; [|reflexivity].
  apply (proj1 (proj2 (create_messages_duplicate_rows
                         sample_engine "m" "m.html" sample_twice [] [] 1 1))
           [recs_row.mk 1 [rec_E]] (recs_row.mk 1 [rec_F]) []).
  - reflexivity.
  - simpl. tauto.
Defined.

(** ** Restricting a candidate set *)

Lemma isin_In (x : Z) (users : list Z) :
  isin x users = if in_dec Z.eq_dec x users then true else false.
Proof.
  unfold isin. destruct (in_dec Z.eq_dec x users) as [Hin|Hnin].
  - apply existsb_exists. exists x. split; [exact Hin|apply Z.eqb_refl].
  - destruct (existsb (Z.eqb x) users) eqn:E; [|reflexivity].
    apply existsb_exists in E. destruct E as [y [Hy Heq]].
    apply Z.eqb_eq in Heq. subst. contradiction.
Qed.

Lemma get_candidate_set_rdd_for_user_eq (df : list candidate.t) (users : list Z) :
  get_candidate_set_rdd_for_user df users
  = match restrict_spec df users with
    | [] => Raise (EmptyDataframeExcpetion "Empty Candidate sets!")
    | _ :: _ => Ok (restrict_spec df users)
    end.
Proof.
  unfold get_candidate_set_rdd_for_user, restrict_spec.
  destruct users as [|u us].
  - destruct (map select_pair df); reflexivity.
  - rewrite (filter_ext _ _ (fun c => isin_In (candidate.user_id c) (u :: us))).
    destruct (map select_pair _); reflexivity.
Qed.

(** C7. [get_candidate_set_rdd_for_user] raises [EmptyDataframeExcpetion]
    exactly when the restricted set is empty and returns the restricted set
    otherwise; without requested users the restricted set is the projection
    of the whole table on [(spark_user_id, recording_id)], and with requested
    users it is the projection of the rows of these users. *)
Theorem get_candidate_set_rdd_for_user_restricts
  (df : list candidate.t) (users : list Z) :
  (get_candidate_set_rdd_for_user df users
   = Raise (EmptyDataframeExcpetion "Empty Candidate sets!")
   <-> restrict_spec df users = [])
  /\ (get_candidate_set_rdd_for_user df users = Ok (restrict_spec df users)
      <-> restrict_spec df users <> [])
  /\ (forall e, get_candidate_set_rdd_for_user df users = Raise e ->
                e = EmptyDataframeExcpetion "Empty Candidate sets!")
  /\ (users = [] -> restrict_spec df users = map select_pair df)
  /\ (users <> [] ->
      forall p : Z * Z,
        In p (restrict_spec df users)
        <-> exists c, In c df /\ In (candidate.user_id c) users
                      /\ p = (candidate.spark_user_id c, candidate.recording_id c)).
Proof.
  rewrite get_candidate_set_rdd_for_user_eq.
  split; [|split; [|split; [|split]]].
  - destruct (restrict_spec df users); split; congruence.
  - destruct (restrict_spec df users); split; congruence.
  - intros e. destruct (restrict_spec df users); congruence.
  - intros ->. reflexivity.
  - intros Hne p. destruct users as [|u us]; [congruence|].
    unfold restrict_spec. rewrite in_map_iff. split.
    + intros [c [<- Hc]]. apply filter_In in Hc. destruct Hc as [Hc Hu].
      exists c. destruct (in_dec Z.eq_dec (candidate.user_id c) (u :: us));
        [auto|discriminate].
    + intros [c [Hc [Hu ->]]]. exists c. split; [reflexivity|].
      apply filter_In. split; [exact Hc|].
      destruct (in_dec Z.eq_dec (candidate.user_id c) (u :: us));
        [reflexivity|contradiction].
Qed.

(** ** The raw path and empty predictions *)

Lemma shuffle_nil {A : Type} (s : schedule) : shuffle s (@nil A) = [].
Proof. apply Permutation_nil. symmetry. apply shuffle_perm. Qed.

Lemma shuffle_nil_inv {A : Type} (s : schedule) (l : list A) :
  shuffle s l = [] -> l = [].
Proof.
  intro H. apply Permutation_nil. rewrite <- H. apply shuffle_perm.
Qed.

Lemma sort_by_nil_inv {A : Type} (before : A -> A -> bool) (l : list A) :
  sort_by before l = [] -> l = [].
Proof.
  intro H. apply Permutation_nil. rewrite <- H. apply sort_by_perm.
Qed.

Lemma process_recommendations_nil (eng : Engine) (cat : Catalog) (limit : Z) :
  process_recommendations eng cat [] limit = [].
Proof.
  unfold process_recommendations, joined_rows, ranked_recommendation. simpl.
  unfold group_by_user_id. simpl. now rewrite shuffle_nil.
Qed.

(** C3, as the claim states it, fails: with a model that recommends nothing
    the flattened set is empty and [get_raw_recommendations] returns the empty
    dataframe, where [generate_recommendations] raises on empty predictions. *)
Lemma get_raw_recommendations_empty_counterexample :
  expanded_recs (recommendForUserSubset silent_model
                   (map user.spark_user_id [user.mk 1 100]) 2) = []
  /\ get_raw_recommendations sample_engine sample_catalog silent_model 2
                             [user.mk 1 100] = Ok []
  /\ get_raw_recommendations sample_engine sample_catalog silent_model 2
                             [user.mk 1 100]
     <> Raise (RecommendationsNotGeneratedException "Recommendations not generated!")
  /\ generate_recommendations sample_engine sample_catalog [(1, 10)]
                              silent_model 2
     = Raise (RecommendationsNotGeneratedException "Recommendations not generated!").
Proof.
  split; [reflexivity|]. split; [reflexivity|]. split; [discriminate|reflexivity].
Qed.

(** The candidate-set path does raise when the model returns no prediction. *)
Lemma generate_recommendations_empty (eng : Engine) (cat : Catalog)
  (candidate_set : list (Z * Z)) (model : ALSModel) (limit : Z) :
  transform model candidate_set = [] ->
  generate_recommendations eng cat candidate_set model limit
  = Raise (RecommendationsNotGeneratedException "Recommendations not generated!").
Proof. intro H. unfold generate_recommendations. now rewrite H. Qed.

(** C3, amended. When the flattened prediction set of the raw path is empty,
    [get_raw_recommendations] raises nothing and returns the empty dataframe;
    the emptiness check that raises [RecommendationsNotGeneratedException]
    belongs to [generate_recommendations], on the candidate-set paths, which
    the raw path does not go through. *)
Theorem get_raw_recommendations_empty
  (eng : Engine) (cat : Catalog) (model : ALSModel) (limit : Z)
  (users_df : list user.t) :
  expanded_recs (recommendForUserSubset model
                   (map user.spark_user_id users_df) limit) = [] ->
  get_raw_recommendations eng cat model limit users_df = Ok []
  /\ forall candidate_set : list (Z * Z),
       transform model candidate_set = [] ->
       generate_recommendations eng cat candidate_set model limit
       = Raise (RecommendationsNotGeneratedException
                  "Recommendations not generated!").
Proof.
  intro Hempty. split.
  - unfold get_raw_recommendations. rewrite Hempty.
    now rewrite process_recommendations_nil.
  - intros cs. apply generate_recommendations_empty.
Qed.

Lemma get_raw_recommendations_empty_witness :
  expanded_recs (recommendForUserSubset silent_model
                   (map user.spark_user_id [user.mk 1 100]) 2) = []
  /\ get_raw_recommendations sample_engine sample_catalog silent_model 2
                             [user.mk 1 100] = Ok [].
Proof.
  split; [reflexivity|].
  apply (get_raw_recommendations_empty sample_engine sample_catalog
           silent_model 2 [user.mk 1 100]).
  reflexivity.
Defined.

(** A nested top-N of two entries with limit five: flattened, ranked, and
    not padded. *)
Example get_raw_recommendations_nested :
  get_raw_recommendations
    sample_engine
    {| recording_view := [recording.mk 10 "E"; recording.mk 11 "F"];
       user_view := [user.mk 3 300];
       recording_discovery_view := [] |}
    nested_model 5 [user.mk 3 300]
  = Ok [recs_row.mk 300 [rec.mk "E" 6 None; rec.mk "F" 4 None]].
Proof. reflexivity. Qed.

(** ** Failure of a run *)

Lemma get_most_recent_model_meta_nil (w : World) (eng : Engine) :
  read_files_from_HDFS w RECOMMENDATION_RECORDING_MODEL_METADATA = Ok [] ->
  get_most_recent_model_meta w eng = Raise IndexError.
Proof.
  intro H. unfold get_most_recent_model_meta. rewrite H. simpl.
  now rewrite shuffle_nil.
Qed.

Lemma get_most_recent_model_meta_raise (w : World) (eng : Engine) (e : exn) :
  get_most_recent_model_meta w eng = Raise e ->
  read_files_from_HDFS w RECOMMENDATION_RECORDING_MODEL_METADATA = Raise e
  \/ read_files_from_HDFS w RECOMMENDATION_RECORDING_MODEL_METADATA = Ok [].
Proof.
  unfold get_most_recent_model_meta.
  destruct (read_files_from_HDFS w RECOMMENDATION_RECORDING_MODEL_METADATA)
    as [rows|e'] eqn:E; simpl.
  - destruct rows as [|r t]; [auto|].
    destruct (sort_by _ _) as [|m l] eqn:Es; [|discriminate].
    apply sort_by_nil_inv, shuffle_nil_inv in Es. discriminate.
  - intros [= ->]. auto.
Qed.

Lemma get_recommendations_for_candidate_set_raise (eng : Engine) (cat : Catalog)
  (model : ALSModel) (df : list candidate.t) (limit : Z) (users : list Z) (e : exn) :
  get_recommendations_for_candidate_set eng cat model df limit users = Raise e ->
  get_candidate_set_rdd_for_user df users = Raise e
  \/ exists cs, get_candidate_set_rdd_for_user df users = Ok cs
                /\ transform model cs = [].
Proof.
  unfold get_recommendations_for_candidate_set, generate_recommendations.
  destruct (get_candidate_set_rdd_for_user df users) as [cs|e'] eqn:E; simpl.
  - destruct (transform model cs) eqn:Et; simpl; [|discriminate].
    intros _. right. exists cs. auto.
  - intros [= ->]. auto.
Qed.

Lemma get_recommendations_for_candidate_set_ok_inv (eng : Engine) (cat : Catalog)
  (model : ALSModel) (df : list candidate.t) (limit : Z) (users : list Z)
  (recs_df : list recs_row.t) :
  get_recommendations_for_candidate_set eng cat model df limit users = Ok recs_df ->
  exists cs, get_candidate_set_rdd_for_user df users = Ok cs
             /\ transform model cs <> []
             /\ recs_df = process_recommendations eng cat (transform model cs) limit.
Proof.
  unfold get_recommendations_for_candidate_set, generate_recommendations.
  destruct (get_candidate_set_rdd_for_user df users) as [cs|e]; simpl;
    [|discriminate].
  destruct (transform model cs) as [|r t] eqn:Et; simpl; [discriminate|].
  intros [= <-]. exists cs. rewrite Et.
  split; [reflexivity|]. split; [discriminate|reflexivity].
Qed.

(** One step of a run that succeeds: the stage at the head returned a value. *)
Ltac ok_stage name :=
  match goal with
  | |- bind ?r _ = Ok _ -> _ =>
      let E := fresh "E" name in
      destruct r as [name|] eqn:E; simpl bind; [|discriminate]
  end.

(** In a run that succeeds every stage returned a value. *)
Lemma main_ok_stages
  (w : World) (eng : Engine) (k_top k_similar k_raw : Z) (users : list Z)
  (msgs : list message) :
  main w eng k_top k_similar k_raw users = Ok msgs ->
  exists (top similar : list candidate.t) (model_id model_html_file : string)
         (model : ALSModel) (cs_top cs_similar : list (Z * Z)),
    (exists u, init_spark_session w "Recommendations" = Ok u)
    /\ (forall p, exists rows, read_files_from_HDFS w p = Ok rows)
    /\ read_files_from_HDFS w RECOMMENDATION_RECORDING_MODEL_METADATA <> Ok []
    /\ read_files_from_HDFS w RECOMMENDATION_RECORDING_TOP_ARTIST_CANDIDATE_SET
       = Ok top
    /\ read_files_from_HDFS w RECOMMENDATION_RECORDING_SIMILAR_ARTIST_CANDIDATE_SET
       = Ok similar
    /\ get_most_recent_model_meta w eng = Ok (model_id, model_html_file)
    /\ load_model w model_id = Ok model
    /\ (exists users_df, get_user_name_and_user_id top users = Ok users_df)
    /\ get_candidate_set_rdd_for_user top users = Ok cs_top
    /\ transform model cs_top <> []
    /\ get_candidate_set_rdd_for_user similar users = Ok cs_similar
    /\ transform model cs_similar <> [].
Proof.
  unfold main.
  ok_stage session. ok_stage recordings. ok_stage top. ok_stage similar.
  ok_stage discovery.
  destruct (get_most_recent_model_meta w eng) as [[mid mf]|] eqn:Emeta;
    simpl bind; [|discriminate].
  ok_stage model. ok_stage users_df. ok_stage ta. ok_stage sa. intros _.
  apply get_recommendations_for_candidate_set_ok_inv in Eta, Esa.
  destruct Eta as [cs1 [Hc1 [Ht1 _]]], Esa as [cs2 [Hc2 [Ht2 _]]].
  exists top, similar, mid, mf, model, cs1, cs2.
  assert (Hmeta : exists rows,
             read_files_from_HDFS w RECOMMENDATION_RECORDING_MODEL_METADATA
             = Ok rows /\ rows <> []).
  { unfold get_most_recent_model_meta in Emeta.
    destruct (read_files_from_HDFS w RECOMMENDATION_RECORDING_MODEL_METADATA)
      as [rows|]; [|discriminate].
    exists rows. split; [reflexivity|]. intros ->. simpl in Emeta.
    rewrite shuffle_nil in Emeta. discriminate. }
  destruct Hmeta as [rows [Hrows Hne]].
  repeat split; eauto.
  - intros []; eauto.
  - rewrite Hrows. congruence.
Qed.

(** C9. When a stage of the run fails (the session, a dataset, the model
    metadata, loading the model, the active users, a candidate set, or the
    predictions of a candidate set), [main] returns no message sequence: its
    result is one raised exception. *)
Theorem main_fails_without_output
  (w : World) (eng : Engine)
  (recommendation_top_artist_limit recommendation_similar_artist_limit
     recommendation_raw_limit : Z) (users : list Z) :
  stage_fails w eng users ->
  exists e : exn,
    main w eng recommendation_top_artist_limit
         recommendation_similar_artist_limit recommendation_raw_limit users
    = Raise e.
Proof.
  intro Hfail.
  destruct (main w eng recommendation_top_artist_limit
                 recommendation_similar_artist_limit recommendation_raw_limit
                 users) as [msgs|e] eqn:Emain; [|now exists e].
  exfalso. apply main_ok_stages in Emain.
  destruct Emain as [top [similar [mid [mf [model [cs1 [cs2
      [[u Hs] [Hread [Hmeta [Htop [Hsim [Hmid [Hload [[users_df Hu]
      [Hc1 [Ht1 [Hc2 Ht2]]]]]]]]]]]]]]]]]].
  destruct Hfail as
      [e He | p e He | He | mid' mf' e Hm Hl | df e Hr Hu' | df e Hr Hc
       | df e Hr Hc | df cs mid' mf' m Hr Hc Hm Hl Ht
       | df cs mid' mf' m Hr Hc Hm Hl Ht].
  - congruence.
  - destruct (Hread p) as [rows Hrows]. congruence.
  - contradiction.
  - congruence.
  - congruence.
  - congruence.
  - congruence.
  - assert (df = top) by congruence. assert (m = model) by congruence.
    subst. congruence.
  - assert (df = similar) by congruence. assert (m = model) by congruence.
    subst. congruence.
Qed.

(** Conversely, for the exceptions the script raises itself or lets through
    from the session, the files and the model loader, with [users] a list: a
    run that raises has one of the failing stages of [stage_fails]. *)
Lemma main_raise_stage_fails
  (w : World) (eng : Engine) (k_top k_similar k_raw : Z) (users : list Z)
  (e : exn) :
  main w eng k_top k_similar k_raw users = Raise e -> stage_fails w eng users.
Proof.
  unfold main.
  destruct (init_spark_session w "Recommendations") as [[]|e0] eqn:E0;
    simpl bind; [|intros _; eapply session_not_initialized; eassumption].
  destruct (read_files_from_HDFS w RECOMMENDATION_RECORDINGS_DATAFRAME)
    as [recordings|e1] eqn:E1;
    simpl bind; [|intros _; eapply dataset_unavailable; eassumption].
  destruct (read_files_from_HDFS w RECOMMENDATION_RECORDING_TOP_ARTIST_CANDIDATE_SET)
    as [top|e2] eqn:E2;
    simpl bind; [|intros _; eapply dataset_unavailable; eassumption].
  destruct (read_files_from_HDFS w RECOMMENDATION_RECORDING_SIMILAR_ARTIST_CANDIDATE_SET)
    as [similar|e3] eqn:E3;
    simpl bind; [|intros _; eapply dataset_unavailable; eassumption].
  destruct (read_files_from_HDFS w RECORDING_DISCOVERY) as [discovery|e4] eqn:E4;
    simpl bind; [|intros _; eapply dataset_unavailable; eassumption].
  destruct (get_most_recent_model_meta w eng) as [[mid mf]|e5] eqn:E5;
    simpl bind.
  2:{ intros _. destruct (get_most_recent_model_meta_raise _ _ _ E5) as [H|H].
      - eapply dataset_unavailable; eassumption.
      - apply no_model_metadata; assumption. }
  destruct (load_model w mid) as [model|e6] eqn:E6;
    simpl bind; [|intros _; eapply model_load_fault; eassumption].
  destruct (get_user_name_and_user_id top users) as [users_df|e7] eqn:E7;
    simpl bind; [|intros _; eapply no_active_users; eassumption].
  destruct (get_recommendations_for_candidate_set _ _ _ top _ _)
    as [ta|e8] eqn:E8; simpl bind.
  2:{ intros _.
      destruct (get_recommendations_for_candidate_set_raise _ _ _ _ _ _ _ E8)
        as [H|[cs [Hc Ht]]].
      - eapply empty_top_artist_candidate_set; eassumption.
      - eapply top_artist_recommendations_not_generated; eassumption. }
  destruct (get_recommendations_for_candidate_set _ _ _ similar _ _)
    as [sa|e9] eqn:E9; simpl bind.
  2:{ intros _.
      destruct (get_recommendations_for_candidate_set_raise _ _ _ _ _ _ _ E9)
        as [H|[cs [Hc Ht]]].
      - eapply empty_similar_artist_candidate_set; eassumption.
      - eapply similar_artist_recommendations_not_generated; eassumption. }
  discriminate.
Qed.

(** An empty similar-artist candidate set ends the run without messages. *)
Lemma main_fails_without_output_witness :
  stage_fails (sample_world []) sample_engine []
  /\ exists e : exn, main (sample_world []) sample_engine 2 2 2 [] = Raise e.
Proof.
  assert (H : stage_fails (sample_world []) sample_engine []).
  { eapply empty_similar_artist_candidate_set with (candidate_set_df := []);
      reflexivity. }
  split; [exact H|].
  exact (main_fails_without_output (sample_world []) sample_engine 2 2 2 [] H).
Defined.

Example main_empty_candidate_set :
  main (sample_world []) sample_engine 2 2 2 []
  = Raise (EmptyDataframeExcpetion "Empty Candidate sets!").
Proof. reflexivity. Qed.

Example main_sample_run :
  main (sample_world [candidate.mk 1 11 100]) sample_engine 1 2 2 []
  = Ok [cf_recommendations_recording_recommendations
          100 [rec.mk "B" 11 None] [rec.mk "B" 11 None] []
          "m" "http://michael.metabrainz.org/m.html";
        cf_recommendations_recording_mail 1 1 1 0 "0.00"].
Proof. reflexivity. Qed.

(** A run that succeeds returns the sequence of [create_messages] over three
    dataframes of [process_recommendations], all on the same views. *)
Lemma main_ok_messages
  (w : World) (eng : Engine) (k_top k_similar k_raw : Z) (users : list Z)
  (msgs : list message) :
  main w eng k_top k_similar k_raw users = Ok msgs ->
  exists (cat : Catalog) (model_id model_html_file : string)
         (top_df similar_df raw_df : list recommendation.t)
         (active_user_count : Z) (total_time : Q),
    msgs = create_messages eng model_id model_html_file
             (process_recommendations eng cat top_df k_top)
             (process_recommendations eng cat similar_df k_similar)
             (process_recommendations eng cat raw_df k_raw)
             active_user_count total_time.
Proof.
  unfold main.
  ok_stage session. ok_stage recordings. ok_stage top. ok_stage similar.
  ok_stage discovery.
  destruct (get_most_recent_model_meta w eng) as [[mid mf]|]; simpl bind;
    [|discriminate].
  ok_stage model. ok_stage users_df. ok_stage ta. ok_stage sa.
  apply get_recommendations_for_candidate_set_ok_inv in Eta, Esa.
  destruct Eta as [cs1 [_ [_ ->]]], Esa as [cs2 [_ [_ ->]]].
  unfold get_raw_recommendations. simpl bind. intros [= <-].
  eexists _, mid, mf, _, _, _, _, _. reflexivity.
Qed.

(** ** Counting the rows of a group *)

Section FlatMapFacts.
Context {A B : Type}.

Lemma flat_map_flat_map {C : Type} (f : A -> list B) (g : B -> list C)
  (l : list A) :
  flat_map g (flat_map f l) = flat_map (fun x => flat_map g (f x)) l.
Proof.
  induction l as [|x t IH]; simpl; [reflexivity|].
  now rewrite flat_map_app, IH.
Qed.

Lemma filter_nil_all (p : A -> bool) (l : list A) :
  (forall x, In x l -> p x = false) -> filter p l = [].
Proof.
  induction l as [|x t IH]; simpl; intro H; [reflexivity|].
  rewrite (H x) by auto. apply IH. auto.
Qed.

Lemma filter_filter (p q : A -> bool) (l : list A) :
  filter p (filter q l) = filter (fun x => p x && q x) l.
Proof.
  induction l as [|x t IH]; simpl; [reflexivity|].
  destruct (q x); simpl; [|now rewrite andb_false_r].
  rewrite andb_true_r. destruct (p x); now rewrite IH.
Qed.

(** When every [x] expands to one row passing [p] if [q x], and to none
    otherwise, the rows passing [p] are as many as the [x] passing [q]. *)
Lemma length_filter_flat_map (f : A -> list B) (p : B -> bool) (q : A -> bool)
  (l : list A) :
  (forall x, In x l ->
             List.length (filter p (f x)) = if q x then 1%nat else 0%nat) ->
  List.length (filter p (flat_map f l)) = List.length (filter q l).
Proof.
  induction l as [|x t IH]; simpl; intro H; [reflexivity|].
  rewrite filter_app, length_app, (H x) by auto.
  rewrite IH by auto. destruct (q x); reflexivity.
Qed.

End FlatMapFacts.

Lemma row_number_from_In {A B : Type} (mk : A -> Z -> B) (k : Z) (l : list A)
  (x : B) :
  In x (row_number_from mk k l) -> exists r k', In r l /\ x = mk r k'.
Proof.
  revert k; induction l as [|r t IH]; intro k; simpl; [tauto|].
  intros [<-|Hin].
  - exists r, k. auto.
  - destruct (IH _ Hin) as [r' [k' [Hr ->]]]. exists r', k'. auto.
Qed.

(** The ranks of a partition are [k], [k + 1], ... : those up to [limit] are
    the first [limit - k + 1] rows. *)
Lemma row_number_from_filter_length (k limit : Z) (l : list recommendation.t) :
  Z.of_nat (List.length (filter (fun x => ranked.rank x <=? limit)
                                (row_number_from as_ranked k l)))
  = Z.max 0 (Z.min (Z.of_nat (List.length l)) (limit - k + 1)).
Proof.
  revert k; induction l as [|r t IH]; intro k.
  - simpl. lia.
  - simpl row_number_from. simpl filter. simpl ranked.rank.
    change (List.length (r :: t)) with (S (List.length t)).
    destruct (Z.leb_spec k limit).
    + change (List.length (?a :: ?b)) with (S (List.length b)).
      rewrite Nat2Z.inj_succ, IH. lia.
    + rewrite IH. lia.
Qed.

Lemma ranked_partition_In (eng : Engine) (df : list recommendation.t) (u : Z)
  (x : ranked.t) :
  In x (ranked_partition eng df u) ->
  ranked.spark_user_id x = u
  /\ exists r, In r df /\ recommendation.spark_user_id r = u
               /\ ranked.recording_id x = recommendation.recording_id r.
Proof.
  unfold ranked_partition. intro Hin.
  apply row_number_from_In in Hin. destruct Hin as [r [k [Hr ->]]].
  unfold order_by_prediction_desc in Hr.
  apply (Permutation_in _ (sort_by_perm _ _)) in Hr.
  apply (Permutation_in _ (shuffle_perm _ _)) in Hr.
  unfold window_partition in Hr. apply filter_In in Hr.
  destruct Hr as [Hr Hu]. apply Z.eqb_eq in Hu. simpl.
  split; [exact Hu|]. exists r. auto.
Qed.

(** The ranked rows of one spark user are those of its partition. *)
Lemma ranked_recommendation_filter (eng : Engine) (df : list recommendation.t)
  (su : Z) (p : ranked.t -> bool) :
  filter (fun x => (ranked.spark_user_id x =? su) && p x)
         (ranked_recommendation eng df)
  = filter p (ranked_partition eng df su).
Proof.
  unfold ranked_recommendation.
  assert (Hsame : filter (fun x => (ranked.spark_user_id x =? su) && p x)
                         (ranked_partition eng df su)
                  = filter p (ranked_partition eng df su)).
  { apply filter_ext_in. intros x Hx.
    destruct (ranked_partition_In _ _ _ _ Hx) as [-> _].
    now rewrite Z.eqb_refl. }
  assert (Hother : forall u, u <> su ->
             filter (fun x => (ranked.spark_user_id x =? su) && p x)
                    (ranked_partition eng df u) = []).
  { intros u Hne. apply filter_nil_all. intros x Hx.
    destruct (ranked_partition_In _ _ _ _ Hx) as [-> _].
    destruct (Z.eqb_spec u su); [contradiction|reflexivity]. }
  assert (Hnone : ~ In su (map recommendation.spark_user_id df) ->
                  ranked_partition eng df su = []).
  { intro Hnin. destruct (ranked_partition eng df su) as [|x t] eqn:E;
      [reflexivity|]. exfalso. apply Hnin.
    destruct (ranked_partition_In eng df su x) as [_ [r [Hr [Hu _]]]].
    - rewrite E. now left.
    - rewrite <- Hu. now apply in_map. }
  assert (Hnd : NoDup (distinct (map recommendation.spark_user_id df)))
    by apply NoDup_nodup.
  assert (Hin : In su (distinct (map recommendation.spark_user_id df))
                <-> In su (map recommendation.spark_user_id df))
    by apply nodup_In.
  revert Hnd Hin Hnone.
  generalize (distinct (map recommendation.spark_user_id df)) as us.
  generalize (map recommendation.spark_user_id df) as all.
  intros all us Hnd. revert all.
  induction Hnd as [|u us Hu Hnd IH]; intros all Hin Hnone; simpl.
  - rewrite Hnone; [reflexivity|]. intro H. apply Hin in H. exact H.
  - rewrite filter_app. destruct (Z.eq_dec u su) as [->|Hne].
    + rewrite Hsame.
      replace (filter _ (flat_map _ us)) with (@nil ranked.t);
        [now rewrite app_nil_r|].
      symmetry. clear IH Hin. induction us as [|v vs IHv]; [reflexivity|].
      simpl. rewrite filter_app, Hother.
      * simpl. apply IHv; [|now inversion Hnd].
        intro H. apply Hu. now right.
      * intros ->. apply Hu. now left.
    + rewrite (Hother u Hne). simpl.
      apply (IH (if in_dec Z.eq_dec su us then [su] else [])).
      * destruct (in_dec Z.eq_dec su us); simpl; tauto.
      * intro Hnin. apply Hnone. intro Hall. apply Hin in Hall.
        destruct Hall as [Heq|Hall]; [congruence|].
        apply Hnin. destruct (in_dec Z.eq_dec su us); simpl; tauto.
Qed.

Lemma joins_expand (cat : Catalog) (rm : list ranked.t) :
  join_discovery
    (join_user (join_recording rm (recording_view cat)) (user_view cat))
    (recording_discovery_view cat)
  = flat_map (expand cat) rm.
Proof.
  unfold expand, join_discovery, join_user, join_recording, left_join, inner_join.
  rewrite !flat_map_flat_map. apply flat_map_ext. intro x. simpl.
  now rewrite app_nil_r, ?flat_map_flat_map.
Qed.

Lemma expand_In (cat : Catalog) (x : ranked.t) (j : joined.t) :
  In j (expand cat x) ->
  exists y u,
    In y (recording_view cat)
    /\ recording.recording_id y = ranked.recording_id x
    /\ In u (user_view cat)
    /\ user.spark_user_id u = ranked.spark_user_id x
    /\ joined.user_id j = user.user_id u
    /\ joined.recording_mbid j = recording.recording_mbid y
    /\ joined.rank j = ranked.rank x
    /\ joined.score j = ranked.score x.
Proof.
  unfold expand, join_discovery, join_user, join_recording, left_join, inner_join.
  simpl. rewrite app_nil_r. intro Hj.
  apply in_flat_map in Hj. destruct Hj as [xmu [Hxmu Hj]].
  apply in_flat_map in Hxmu. destruct Hxmu as [xm [Hxm Hxmu]].
  apply in_map_iff in Hxm. destruct Hxm as [y [<- Hy]].
  apply filter_In in Hy. destruct Hy as [Hy Hrid]. apply Z.eqb_eq in Hrid.
  apply in_map_iff in Hxmu. destruct Hxmu as [u [<- Hu]].
  apply filter_In in Hu. destruct Hu as [Hu Hsu]. apply Z.eqb_eq in Hsu.
  simpl in Hsu. exists y, u.
  assert (Hshape : exists d, j = as_joined (x, recording.recording_mbid y,
                                            user.user_id u) d).
  { destruct (filter _ (recording_discovery_view cat)) as [|d ds].
    - destruct Hj as [<-|[]]. now exists None.
    - destruct Hj as [<-|Hj]; [now exists (Some d)|].
      apply in_map_iff in Hj. destruct Hj as [d' [<- _]]. now exists (Some d'). }
  destruct Hshape as [d ->]. simpl. repeat split; assumption.
Qed.

(** Under the key constraints a ranked row of [su] becomes one joined row,
    of [uid] and with the rank of the ranked row. *)
Lemma expand_one (cat : Catalog) (x : ranked.t) (uid : Z) :
  has_one_metadata_row cat (ranked.recording_id x) ->
  has_identity cat (ranked.spark_user_id x) uid ->
  listened_at_most_once cat uid ->
  exists j, expand cat x = [j]
            /\ joined.user_id j = uid /\ joined.rank j = ranked.rank x.
Proof.
  intros Hrec [Huser _] Hrd.
  unfold expand, join_discovery, join_user, join_recording, left_join, inner_join.
  simpl. rewrite app_nil_r. unfold has_one_metadata_row in Hrec.
  destruct (filter _ (recording_view cat)) as [|y [|y' ys]]; try discriminate.
  simpl. rewrite app_nil_r.
  change (filter _ (user_view cat))
    with (filter (fun u => user.spark_user_id u =? ranked.spark_user_id x)
                 (user_view cat)).
  rewrite Huser. simpl. rewrite app_nil_r.
  specialize (Hrd (recording.recording_mbid y)).
  change (filter _ (recording_discovery_view cat))
    with (filter (fun d => (recording_discovery.user_id d =? uid)
                           && String.eqb (recording_discovery.recording_mbid d)
                                         (recording.recording_mbid y))
                 (recording_discovery_view cat)).
  destruct (filter _ (recording_discovery_view cat)) as [|d [|d' ds]].
  - eexists. split; [reflexivity|]. simpl. auto.
  - eexists. split; [reflexivity|]. simpl. auto.
  - simpl in Hrd. lia.
Qed.

(** The number of rows in the group of [uid], under the key constraints. *)
Lemma group_rows_length (eng : Engine) (cat : Catalog)
  (df : list recommendation.t) (limit su uid : Z) :
  (forall r, In r df -> recommendation.spark_user_id r = su ->
             has_one_metadata_row cat (recommendation.recording_id r)) ->
  has_identity cat su uid ->
  listened_at_most_once cat uid ->
  Z.of_nat (List.length (group_rows (joined_rows eng cat df limit) uid))
  = Z.max 0 (Z.min (prediction_count df su) limit).
Proof.
  intros Hrec Huser Hrd. unfold group_rows, joined_rows.
  rewrite joins_expand, filter_filter.
  rewrite (length_filter_flat_map _ _
             (fun x => (ranked.spark_user_id x =? su)
                       && (ranked.rank x <=? limit))).
  - rewrite ranked_recommendation_filter. unfold ranked_partition.
    rewrite row_number_from_filter_length. unfold prediction_count.
    unfold order_by_prediction_desc.
    rewrite (Permutation_length (sort_by_perm _ _)).
    rewrite (Permutation_length (shuffle_perm _ _)).
    f_equal. f_equal. lia.
  - intros x Hx. destruct (Z.eqb_spec (ranked.spark_user_id x) su) as [Hsu|Hne].
    + apply in_flat_map in Hx. destruct Hx as [u [_ Hx]].
      destruct (ranked_partition_In _ _ _ _ Hx) as [Hu [r [Hr [Hru Hrid]]]].
      destruct (expand_one cat x uid) as [j [-> [Hj Hrank]]].
      * rewrite Hrid. apply Hrec; [exact Hr|congruence].
      * now rewrite Hsu.
      * exact Hrd.
      * simpl. rewrite Hj, Hrank, Z.eqb_refl. simpl.
        destruct (ranked.rank x <=? limit); reflexivity.
    + simpl. rewrite filter_nil_all; [reflexivity|].
      intros j Hj. apply expand_In in Hj.
      destruct Hj as [y [u [_ [_ [Hu [Hsu [Hjid _]]]]]]].
      destruct (Z.eqb_spec (joined.user_id j) uid) as [Heq|_];
        [|apply andb_false_r || reflexivity].
      exfalso. apply Hne. rewrite <- Hsu. apply (proj2 Huser u Hu). congruence.
Qed.

(** ** Truncation *)

Lemma recs_of_group_length (eng : Engine) (rows : list joined.t) (uid : Z) :
  List.length (recs_of_group eng rows uid) = List.length (group_rows rows uid).
Proof.
  rewrite (Permutation_length (recs_of_group_perm eng rows uid)).
  apply length_map.
Qed.

(** C1, as the claim states it, fails: a user with two predictions and limit
    two gets a list of one entry when one of the two recordings has no
    metadata row. *)
Lemma process_recommendations_length_counterexample :
  prediction_count sample_missing_metadata 1 = 2
  /\ process_recommendations sample_engine sample_catalog
                             sample_missing_metadata 2
     = [recs_row.mk 100 [rec.mk "A" 9 None]]
  /\ Z.of_nat (List.length [rec.mk "A" 9 None]) <> Z.min 2 2.
Proof.
  split; [reflexivity|]. split; [reflexivity|]. discriminate.
Qed.

(** C1, amended. When every recording predicted for a spark user has exactly
    one metadata row, the spark user has one identity that no other spark
    user shares, and the listen history has at most one row per recording for
    that identity, the list returned for the user has exactly
    [min n limit] entries, [n] being the number of the user's predictions;
    and the user has a row as soon as [n] and [limit] are at least one. *)
Theorem process_recommendations_length
  (eng : Engine) (cat : Catalog) (df : list recommendation.t)
  (limit su uid : Z) :
  (forall r, In r df -> recommendation.spark_user_id r = su ->
             has_one_metadata_row cat (recommendation.recording_id r)) ->
  has_identity cat su uid ->
  listened_at_most_once cat uid ->
  (forall row, In row (process_recommendations eng cat df limit) ->
               recs_row.user_id row = uid ->
               Z.of_nat (List.length (recs_row.recs row))
               = Z.min (prediction_count df su) limit)
  /\ (1 <= prediction_count df su -> 1 <= limit ->
      In uid (users_of (process_recommendations eng cat df limit))).
Proof.
  intros Hrec Huser Hrd.
  pose proof (group_rows_length eng cat df limit su uid Hrec Huser Hrd) as Hlen.
  unfold process_recommendations. split.
  - intros row Hin Huid. apply group_by_user_id_In in Hin.
    destruct Hin as [Hmem Hrecs]. rewrite Hrecs, Huid, recs_of_group_length.
    rewrite Hlen. rewrite Huid in Hmem. apply in_map_iff in Hmem.
    destruct Hmem as [j [Hj Hjin]].
    assert (Hg : In j (group_rows (joined_rows eng cat df limit) uid)).
    { unfold group_rows. apply filter_In. split; [exact Hjin|].
      now apply Z.eqb_eq. }
    destruct (group_rows (joined_rows eng cat df limit) uid); [destruct Hg|].
    simpl List.length in Hlen. lia.
  - intros Hn Hk.
    destruct (group_rows (joined_rows eng cat df limit) uid) as [|j t] eqn:E.
    + simpl in Hlen. lia.
    + assert (Hj : In j (group_rows (joined_rows eng cat df limit) uid))
        by (rewrite E; now left).
      unfold group_rows in Hj. apply filter_In in Hj. destruct Hj as [Hj Hu].
      apply Z.eqb_eq in Hu. unfold users_of. apply in_map_iff.
      exists (recs_row.mk uid (recs_of_group eng (joined_rows eng cat df limit) uid)).
      split; [reflexivity|]. apply group_by_user_id_In. simpl.
      split; [|reflexivity]. rewrite <- Hu. now apply in_map.
Qed.

(** Scores 9, 5 and 3 with limit two: the two best are kept. *)
Lemma process_recommendations_length_witness :
  (forall r, In r sample_predictions -> recommendation.spark_user_id r = 1 ->
             has_one_metadata_row sample_catalog_three
                                  (recommendation.recording_id r))
  /\ has_identity sample_catalog_three 1 100
  /\ listened_at_most_once sample_catalog_three 100
  /\ (forall row,
        In row (process_recommendations sample_engine sample_catalog_three
                                        sample_predictions 2) ->
        recs_row.user_id row = 100 ->
        Z.of_nat (List.length (recs_row.recs row))
        = Z.min (prediction_count sample_predictions 1) 2)
  /\ (1 <= prediction_count sample_predictions 1 -> 1 <= 2 ->
      In 100 (users_of (process_recommendations
                          sample_engine sample_catalog_three
                          sample_predictions 2))).
Proof.
  assert (H1 : forall r, In r sample_predictions ->
                         recommendation.spark_user_id r = 1 ->
                         has_one_metadata_row sample_catalog_three
                                              (recommendation.recording_id r)).
  { intros r [<-|[<-|[<-|[]]]] _; reflexivity. }
  assert (H2 : has_identity sample_catalog_three 1 100).
  { split; [reflexivity|]. intros u [<-|[]] _. reflexivity. }
  assert (H3 : listened_at_most_once sample_catalog_three 100).
  { intro m. cbn -[String.eqb]. destruct (String.eqb "B" m); simpl; lia. }
  split; [exact H1|]. split; [exact H2|]. split; [exact H3|].
  exact (process_recommendations_length sample_engine sample_catalog_three
           sample_predictions 2 1 100 H1 H2 H3).
Defined.

Example process_recommendations_top_two :
  process_recommendations sample_engine sample_catalog_three sample_predictions 2
  = [recs_row.mk 100 [rec.mk "A" 9 None;
                      rec.mk "B" 5 (Some "2021-01-01T00:00:00.000Z"%string)]].
Proof. reflexivity. Qed.

(** ** Uniqueness of the recordings of a list *)

Section NoDupFacts.
Context {A B K C : Type}.

Lemma NoDup_map_inj_In (f : A -> K) (l : list A) (a b : A) :
  NoDup (map f l) -> In a l -> In b l -> f a = f b -> a = b.
Proof.
  induction l as [|x t IH]; simpl; [tauto|].
  intros Hnd Ha Hb Hf. inversion Hnd as [|? ? Hx Ht]; subst.
  destruct Ha as [->|Ha], Hb as [->|Hb]; auto.
  - exfalso. apply Hx. rewrite Hf. now apply in_map.
  - exfalso. apply Hx. rewrite <- Hf. now apply in_map.
Qed.

Lemma NoDup_map_filter (f : A -> K) (p : A -> bool) (l : list A) :
  NoDup (map f l) -> NoDup (map f (filter p l)).
Proof.
  induction l as [|x t IH]; simpl; intro Hnd; [constructor|].
  inversion Hnd as [|? ? Hx Ht]; subst.
  destruct (p x); simpl; [|auto].
  constructor; [|auto]. intro Hin. apply Hx.
  apply in_map_iff in Hin. destruct Hin as [y [Hy Hyin]].
  apply filter_In in Hyin. rewrite <- Hy. apply in_map. tauto.
Qed.

(** Distinct under [h] and [g] finer than [h] on the list: distinct under [g]. *)
Lemma NoDup_map_finer (g : A -> C) (h : A -> K) (l : list A) :
  (forall x y, In x l -> In y l -> g x = g y -> h x = h y) ->
  NoDup (map h l) -> NoDup (map g l).
Proof.
  induction l as [|x t IH]; simpl; intros Hfin Hnd; [constructor|].
  inversion Hnd as [|? ? Hx Ht]; subst. constructor.
  - intro Hin. apply Hx. apply in_map_iff in Hin.
    destruct Hin as [y [Hy Hyin]]. rewrite (Hfin x y) by auto.
    now apply in_map.
  - apply IH; auto.
Qed.

(** Rows with distinct keys whose expansions are duplicate-free under [g]
    and share no [g]-value across keys expand to a duplicate-free list. *)
Lemma NoDup_map_flat_map (key : A -> K) (g : B -> C) (f : A -> list B)
  (l : list A) :
  NoDup (map key l) ->
  (forall x, In x l -> NoDup (map g (f x))) ->
  (forall x y b c, In x l -> In y l -> In b (f x) -> In c (f y) ->
                   g b = g c -> key x = key y) ->
  NoDup (map g (flat_map f l)).
Proof.
  induction l as [|x t IH]; simpl; intros Hnd Hone Hcross; [constructor|].
  inversion Hnd as [|? ? Hx Ht]; subst.
  rewrite map_app. apply NoDup_app.
  - apply Hone. now left.
  - apply IH; [exact Ht|auto|]. intros; eapply Hcross; eauto.
  - intros v Hv1 Hv2. apply in_map_iff in Hv1, Hv2.
    destruct Hv1 as [b [Hb Hbin]], Hv2 as [c [Hc Hcin]].
    apply in_flat_map in Hcin. destruct Hcin as [y [Hy Hcin]].
    apply Hx. rewrite (Hcross x y b c) by (auto; congruence).
    now apply in_map.
Qed.

End NoDupFacts.

Lemma map_row_number_from {A B C : Type} (mk : A -> Z -> B) (g : B -> C)
  (h : A -> C) (k : Z) (l : list A) :
  (forall r k', g (mk r k') = h r) ->
  map g (row_number_from mk k l) = map h l.
Proof.
  intro H. revert k; induction l as [|r t IH]; intro k; simpl; [reflexivity|].
  now rewrite H, IH.
Qed.

(** Distinct candidate pairs stay distinct in the ranked rows. *)
Lemma ranked_recommendation_NoDup (eng : Engine) (df : list recommendation.t) :
  NoDup (map (fun r => (recommendation.spark_user_id r,
                        recommendation.recording_id r)) df) ->
  NoDup (map (fun x => (ranked.spark_user_id x, ranked.recording_id x))
             (ranked_recommendation eng df)).
Proof.
  intro Hdf. unfold ranked_recommendation.
  apply (NoDup_map_flat_map (fun u : Z => u)).
  - rewrite map_id. apply NoDup_nodup.
  - intros u _. unfold ranked_partition.
    rewrite (map_row_number_from _ _
               (fun r => (recommendation.spark_user_id r,
                          recommendation.recording_id r))) by reflexivity.
    unfold order_by_prediction_desc, window_partition.
    eapply Permutation_NoDup.
    + apply Permutation_map. symmetry.
      etransitivity; [apply sort_by_perm|apply shuffle_perm].
    + apply NoDup_map_filter, Hdf.
  - intros u v b c _ _ Hb Hc Heq.
    destruct (ranked_partition_In _ _ _ _ Hb) as [<- _].
    destruct (ranked_partition_In _ _ _ _ Hc) as [<- _].
    congruence.
Qed.

Lemma left_join_row_In (x : ranked.t * string * Z)
  (rd : list recording_discovery.t) (j : joined.t) :
  In j (match filter (discovery_matches x) rd with
        | [] => [as_joined x None]
        | m => map (fun y => as_joined x (Some y)) m
        end) ->
  exists d, j = as_joined x d.
Proof.
  destruct (filter (discovery_matches x) rd) as [|d ds].
  - intros [<-|[]]. now exists None.
  - intro Hj. apply in_map_iff in Hj. destruct Hj as [d' [<- _]].
    now exists (Some d').
Qed.

(** The rows made of one ranked row differ in [(user_id, recording_mbid)]. *)
Lemma expand_NoDup (cat : Catalog) (x : ranked.t) :
  NoDup (map recording.recording_mbid (recording_view cat)) ->
  NoDup (map user.user_id (user_view cat)) ->
  (forall uid, listened_at_most_once cat uid) ->
  NoDup (map (fun j => (joined.user_id j, joined.recording_mbid j))
             (expand cat x)).
Proof.
  intros Hrec Huser Hrd.
  unfold expand, join_discovery, join_user, join_recording, left_join, inner_join.
  cbn [flat_map]. rewrite app_nil_r.
  apply (NoDup_map_flat_map
           (fun xmu : ranked.t * string * Z => (snd xmu, snd (fst xmu)))).
  - apply (NoDup_map_flat_map (fun xm : ranked.t * string => snd xm)).
    + rewrite map_map. cbn [snd]. apply NoDup_map_filter, Hrec.
    + intros xm _. rewrite map_map. cbn [fst snd].
      apply (NoDup_map_finer _ user.user_id).
      * intros u v _ _ Heq. congruence.
      * apply NoDup_map_filter, Huser.
    + intros xm xm' b c _ _ Hb Hc Heq.
      apply in_map_iff in Hb, Hc.
      destruct Hb as [u [<- _]], Hc as [v [<- _]]. cbn [fst snd] in Heq.
      congruence.
  - intros xmu _. specialize (Hrd (snd xmu) (snd (fst xmu))).
    unfold listened_at_most_once in Hrd.
    change (filter (discovery_matches xmu) (recording_discovery_view cat))
      with (filter (fun d => (recording_discovery.user_id d =? snd xmu)
                             && String.eqb (recording_discovery.recording_mbid d)
                                           (snd (fst xmu)))
                   (recording_discovery_view cat)).
    destruct (filter _ (recording_discovery_view cat)) as [|d [|d' ds]].
    + repeat constructor. simpl. tauto.
    + repeat constructor. simpl. tauto.
    + simpl in Hrd. lia.
  - intros xmu xmu' b c _ _ Hb Hc Heq.
    apply left_join_row_In in Hb, Hc.
    destruct Hb as [d ->], Hc as [d' ->]. exact Heq.
Qed.

(** With distinct candidate pairs and the key constraints, the joined rows
    differ in [(user_id, recording_mbid)]. *)
Lemma joined_rows_NoDup (eng : Engine) (cat : Catalog)
  (df : list recommendation.t) (limit : Z) :
  NoDup (map (fun r => (recommendation.spark_user_id r,
                        recommendation.recording_id r)) df) ->
  NoDup (map recording.recording_mbid (recording_view cat)) ->
  NoDup (map user.user_id (user_view cat)) ->
  (forall uid, listened_at_most_once cat uid) ->
  NoDup (map (fun j => (joined.user_id j, joined.recording_mbid j))
             (joined_rows eng cat df limit)).
Proof.
  intros Hdf Hrec Huser Hrd. unfold joined_rows.
  apply NoDup_map_filter. rewrite joins_expand.
  apply (NoDup_map_flat_map
           (fun x => (ranked.spark_user_id x, ranked.recording_id x))).
  - apply ranked_recommendation_NoDup, Hdf.
  - intros x _. apply expand_NoDup; assumption.
  - intros x x' j j' _ _ Hj Hj' Heq.
    apply expand_In in Hj, Hj'.
    destruct Hj as [y [u [Hy [Hrid [Hu [Hsu [Hjid [Hjm _]]]]]]]].
    destruct Hj' as [y' [u' [Hy' [Hrid' [Hu' [Hsu' [Hjid' [Hjm' _]]]]]]]].
    injection Heq as Hid Hm.
    assert (u = u')
      by (apply (NoDup_map_inj_In user.user_id (user_view cat)); congruence).
    assert (y = y')
      by (apply (NoDup_map_inj_In recording.recording_mbid (recording_view cat));
          congruence).
    subst. congruence.
Qed.

(** C4, as the claim states it, fails: with an item-metadata table in which
    two recordings share an mbid, the list of a user holds that mbid twice. *)
Lemma process_recommendations_mbid_counterexample :
  process_recommendations sample_engine sample_catalog_shared_mbid
                          sample_two_recordings 2
  = [recs_row.mk 100 [rec.mk "A" 9 None; rec.mk "A" 5 None]]
  /\ ~ NoDup (map rec.recording_mbid [rec.mk "A" 9 None; rec.mk "A" 5 None]).
Proof.
  split; [reflexivity|]. intro H. inversion H as [|? ? Hnin _]; subst.
  apply Hnin. now left.
Qed.

(** C4, amended. When the predictions hold no candidate pair twice, no two
    metadata rows share an mbid, no two rows of the user view share a
    [user_id], and the listen history has at most one row per user and
    recording, no [recording_mbid] occurs twice in a list returned by
    [process_recommendations]. *)
Theorem process_recommendations_mbid_unique
  (eng : Engine) (cat : Catalog) (df : list recommendation.t) (limit : Z) :
  NoDup (map (fun r => (recommendation.spark_user_id r,
                        recommendation.recording_id r)) df) ->
  NoDup (map recording.recording_mbid (recording_view cat)) ->
  NoDup (map user.user_id (user_view cat)) ->
  (forall uid, listened_at_most_once cat uid) ->
  Forall (fun row => NoDup (map rec.recording_mbid (recs_row.recs row)))
         (process_recommendations eng cat df limit).
Proof.
  intros Hdf Hrec Huser Hrd. apply Forall_forall. intros row Hin.
  unfold process_recommendations in Hin. apply group_by_user_id_In in Hin.
  destruct Hin as [_ ->].
  eapply Permutation_NoDup.
  - apply Permutation_map. symmetry. apply recs_of_group_perm.
  - rewrite map_map. cbn [as_struct rec.recording_mbid]. unfold group_rows.
    apply (NoDup_map_finer _ (fun j => (joined.user_id j, joined.recording_mbid j))).
    + intros a b Ha Hb Heq. apply filter_In in Ha, Hb.
      destruct Ha as [_ Ha], Hb as [_ Hb]. apply Z.eqb_eq in Ha, Hb.
      congruence.
    + apply NoDup_map_filter, joined_rows_NoDup; assumption.
Qed.

Lemma process_recommendations_mbid_unique_witness :
  NoDup (map (fun r => (recommendation.spark_user_id r,
                        recommendation.recording_id r)) sample_predictions)
  /\ NoDup (map recording.recording_mbid (recording_view sample_catalog_three))
  /\ NoDup (map user.user_id (user_view sample_catalog_three))
  /\ (forall uid, listened_at_most_once sample_catalog_three uid)
  /\ Forall (fun row => NoDup (map rec.recording_mbid (recs_row.recs row)))
            (process_recommendations sample_engine sample_catalog_three
                                     sample_predictions 2).
Proof.
  assert (H1 : NoDup (map (fun r => (recommendation.spark_user_id r,
                                     recommendation.recording_id r))
                          sample_predictions)).
  { repeat constructor; simpl; intuition congruence. }
  assert (H2 : NoDup (map recording.recording_mbid
                          (recording_view sample_catalog_three))).
  { repeat constructor; simpl; intuition congruence. }
  assert (H3 : NoDup (map user.user_id (user_view sample_catalog_three))).
  { repeat constructor; simpl; tauto. }
  assert (H4 : forall uid, listened_at_most_once sample_catalog_three uid).
  { intros uid m. cbn -[String.eqb Z.eqb].
    destruct ((100 =? uid) && String.eqb "B" m)%bool; simpl; lia. }
  split; [exact H1|]. split; [exact H2|]. split; [exact H3|].
  split; [exact H4|].
  exact (process_recommendations_mbid_unique sample_engine sample_catalog_three
           sample_predictions 2 H1 H2 H3 H4).
Defined.

(** ** Schedules reach every order

    A schedule can bring the rows of a partition in any order, and the
    window then numbers them in any order that is sorted by prediction:
    quantifying over schedules is quantifying over all the orders the engine
    may choose. *)

Section ScheduleFacts.
Context {A : Type}.

Lemma pick_In (x : A) (l : list A) :
  In x l ->
  exists (i : nat) (r : list A), (i < List.length l)%nat /\ pick i l = Some (x, r).
Proof.
  induction l as [|y t IH]; simpl; [tauto|].
  intros [->|Hin].
  - exists 0%nat, t. split; [lia|reflexivity].
  - destruct (IH Hin) as [i [r [Hi Hp]]].
    exists (S i), (y :: r). split; [lia|]. simpl. now rewrite Hp.
Qed.

Lemma shuffle_complete (l l' : list A) :
  Permutation l l' -> exists s : schedule, shuffle s l = l'.
Proof.
  revert l; induction l' as [|x t IH]; intros l Hp.
  - apply Permutation_sym, Permutation_nil in Hp. subst. now exists [].
  - assert (Hin : In x l)
      by (apply (Permutation_in _ (Permutation_sym Hp)); now left).
    destruct (pick_In x l Hin) as [i [r [Hi Hpick]]].
    assert (Hr : Permutation r t).
    { apply (Permutation_cons_inv (a := x)).
      rewrite <- (pick_perm _ _ _ _ Hpick). exact Hp. }
    destruct (IH r Hr) as [s Hs]. exists (i :: s). simpl.
    rewrite Nat.mod_small by exact Hi. now rewrite Hpick, Hs.
Qed.

Lemma sort_by_sorted (before : A -> A -> bool) (l : list A) :
  Sorted (fun a b => before a b = true) l -> sort_by before l = l.
Proof.
  induction 1 as [|x t Ht IH Hx]; [reflexivity|].
  change (sort_by before (x :: t)) with (insert_by before x (sort_by before t)).
  rewrite IH.
  destruct Hx as [|y t' Hxy]; simpl; [reflexivity|]. now rewrite Hxy.
Qed.

End ScheduleFacts.

Lemma order_by_prediction_desc_complete (rows sorted : list recommendation.t) :
  Permutation rows sorted ->
  Sorted (fun a b => (recommendation.prediction b <=? recommendation.prediction a)
                     = true) sorted ->
  exists s : schedule, order_by_prediction_desc s rows = sorted.
Proof.
  intros Hp Hs. destruct (shuffle_complete rows sorted Hp) as [s Hsh].
  exists s. unfold order_by_prediction_desc. rewrite Hsh.
  now apply sort_by_sorted.
Qed.

(** * Further properties of the script *)

(** ** Ranks follow the scores *)

Lemma row_number_from_rank (k : Z) (l : list recommendation.t) (x : ranked.t) :
  In x (row_number_from as_ranked k l) ->
  k <= ranked.rank x < k + Z.of_nat (List.length l)
  /\ exists r, In r l /\ x = as_ranked r (ranked.rank x).
Proof.
  revert k; induction l as [|r t IH]; intro k; simpl; [tauto|].
  intros [<-|Hin].
  - simpl. split; [lia|]. exists r. auto.
  - destruct (IH _ Hin) as [Hk [r' [Hr' Hx]]]. split; [lia|].
    exists r'. auto.
Qed.

Lemma prediction_desc_StronglySorted (s : schedule) (rows : list recommendation.t) :
  StronglySorted (fun a b => recommendation.prediction b
                             <= recommendation.prediction a)
                 (order_by_prediction_desc s rows).
Proof.
  apply Sorted_StronglySorted.
  - intros a b c Hab Hbc. lia.
  - unfold order_by_prediction_desc.
    apply sort_by_Sorted; intros x y H.
    + now apply Z.leb_le in H.
    + apply Z.leb_gt in H. lia.
Qed.

Lemma row_number_from_ordered (k : Z) (l : list recommendation.t)
  (x y : ranked.t) :
  StronglySorted (fun a b => recommendation.prediction b
                             <= recommendation.prediction a) l ->
  In x (row_number_from as_ranked k l) ->
  In y (row_number_from as_ranked k l) ->
  ranked.rank x < ranked.rank y -> ranked.score y <= ranked.score x.
Proof.
  intro Hs. revert k; induction Hs as [|r t Ht IH Hr]; intro k; simpl; [tauto|].
  intros [<-|Hx] [<-|Hy] Hlt.
  - simpl in Hlt. lia.
  - destruct (row_number_from_rank _ _ _ Hy) as [_ [r' [Hr' ->]]]. simpl.
    rewrite Forall_forall in Hr. now apply Hr.
  - destruct (row_number_from_rank _ _ _ Hx) as [Hk _]. simpl in Hlt. lia.
  - eapply IH; eassumption.
Qed.

(** Every ranked row is a prediction of the table, numbered from one within
    the predictions of its spark user. *)
Lemma ranked_recommendation_In (eng : Engine) (df : list recommendation.t)
  (x : ranked.t) :
  In x (ranked_recommendation eng df) ->
  In x (ranked_partition eng df (ranked.spark_user_id x))
  /\ 1 <= ranked.rank x <= prediction_count df (ranked.spark_user_id x)
  /\ exists r, In r df
               /\ recommendation.spark_user_id r = ranked.spark_user_id x
               /\ recommendation.recording_id r = ranked.recording_id x
               /\ recommendation.prediction r = ranked.score x.
Proof.
  unfold ranked_recommendation. intro Hin. apply in_flat_map in Hin.
  destruct Hin as [u [_ Hx]].
  destruct (ranked_partition_In _ _ _ _ Hx) as [Hu _]. subst u.
  split; [exact Hx|]. unfold ranked_partition in Hx.
  destruct (row_number_from_rank _ _ _ Hx) as [Hk [r [Hr Hxr]]].
  unfold order_by_prediction_desc in Hk.
  rewrite (Permutation_length (sort_by_perm _ _)) in Hk.
  rewrite (Permutation_length (shuffle_perm _ _)) in Hk.
  split; [unfold prediction_count; lia|].
  unfold order_by_prediction_desc in Hr.
  apply (Permutation_in _ (sort_by_perm _ _)) in Hr.
  apply (Permutation_in _ (shuffle_perm _ _)) in Hr.
  unfold window_partition in Hr. apply filter_In in Hr.
  destruct Hr as [Hr Hu]. apply Z.eqb_eq in Hu.
  exists r. rewrite Hxr. simpl. rewrite Hxr in Hu. simpl in Hu. auto.
Qed.

(** In positions: among the ranked rows of one spark user a smaller rank
    never goes with a smaller position, whatever the engine order. *)
Lemma ranked_recommendation_rank_order
  (eng : Engine) (df : list recommendation.t) (x y : ranked.t) :
  In x (ranked_recommendation eng df) ->
  In y (ranked_recommendation eng df) ->
  ranked.spark_user_id x = ranked.spark_user_id y ->
  ranked.rank x < ranked.rank y ->
  ranked.score y <= ranked.score x.
Proof.
  intros Hx Hy Hu Hlt.
  apply ranked_recommendation_In in Hx, Hy.
  destruct Hx as [Hx _], Hy as [Hy _]. rewrite <- Hu in Hy.
  unfold ranked_partition in Hx, Hy.
  eapply row_number_from_ordered; try eassumption.
  apply prediction_desc_StronglySorted.
Qed.

(** X2. The ranks of the [n] predictions of one spark user are 1, 2, ...,
    [n], each once and in this order: [row_number] never repeats or skips a
    rank, also when scores tie or a candidate pair occurs twice. *)
Theorem ranked_partition_ranks_distinct
  (eng : Engine) (df : list recommendation.t) (u : Z) :
  map ranked.rank (ranked_partition eng df u)
  = map Z.of_nat (seq 1 (Z.to_nat (prediction_count df u))).
Proof.
  unfold ranked_partition, prediction_count. rewrite Nat2Z.id.
  unfold order_by_prediction_desc.
  rewrite <- (Permutation_length (shuffle_perm (window_sched eng u)
                                               (window_partition df u))).
  rewrite <- (Permutation_length
                (sort_by_perm
                   (fun a b => recommendation.prediction b
                               <=? recommendation.prediction a)
                   (shuffle (window_sched eng u) (window_partition df u)))).
  generalize (sort_by (fun a b => recommendation.prediction b
                                  <=? recommendation.prediction a)
                      (shuffle (window_sched eng u) (window_partition df u))).
  intro l. change 1 with (Z.of_nat 1) at 1. generalize 1%nat as k.
  induction l as [|r t IH]; intro k; simpl; [reflexivity|].
  f_equal. replace (Z.of_nat k + 1) with (Z.of_nat (S k)) by lia. apply IH.
Qed.

(** ** What the joins let through *)

(** The joined rows: where each comes from. *)
Lemma joined_rows_In (eng : Engine) (cat : Catalog)
  (df : list recommendation.t) (limit : Z) (j : joined.t) :
  In j (joined_rows eng cat df limit) ->
  exists x, In x (ranked_recommendation eng df)
            /\ In j (expand cat x)
            /\ joined.rank j <= limit.
Proof.
  unfold joined_rows. intro Hj. apply filter_In in Hj.
  destruct Hj as [Hj Hrank]. apply Z.leb_le in Hrank.
  rewrite joins_expand in Hj. apply in_flat_map in Hj.
  destruct Hj as [x [Hx Hj]]. exists x. auto.
Qed.

(** The entries of a returned row: the joined rows of its user. *)
Lemma process_recommendations_In (eng : Engine) (cat : Catalog)
  (df : list recommendation.t) (limit : Z) (row : recs_row.t) (entry : rec.t) :
  In row (process_recommendations eng cat df limit) ->
  In entry (recs_row.recs row) ->
  exists j, In j (joined_rows eng cat df limit)
            /\ joined.user_id j = recs_row.user_id row
            /\ entry = as_struct eng j.
Proof.
  unfold process_recommendations. intros Hrow Hentry.
  apply group_by_user_id_In in Hrow. destruct Hrow as [_ Hrecs].
  rewrite Hrecs in Hentry.
  apply (Permutation_in _ (recs_of_group_perm _ _ _)) in Hentry.
  apply in_map_iff in Hentry. destruct Hentry as [j [<- Hj]].
  unfold group_rows in Hj. apply filter_In in Hj. destruct Hj as [Hj Hu].
  apply Z.eqb_eq in Hu. exists j. auto.
Qed.

(** Where an entry of a returned row comes from. *)
Lemma process_recommendations_entry (eng : Engine) (cat : Catalog)
  (df : list recommendation.t) (limit : Z) (row : recs_row.t) (entry : rec.t) :
  In row (process_recommendations eng cat df limit) ->
  In entry (recs_row.recs row) ->
  exists r y u,
    In r df /\ In y (recording_view cat) /\ In u (user_view cat)
    /\ recording.recording_id y = recommendation.recording_id r
    /\ user.spark_user_id u = recommendation.spark_user_id r
    /\ user.user_id u = recs_row.user_id row
    /\ rec.recording_mbid entry = recording.recording_mbid y
    /\ rec.score entry = recommendation.prediction r.
Proof.
  intros Hrow Hentry.
  destruct (process_recommendations_In _ _ _ _ _ _ Hrow Hentry)
    as [j [Hj [Hu ->]]].
  destruct (joined_rows_In _ _ _ _ _ Hj) as [x [Hx [Hjx _]]].
  destruct (ranked_recommendation_In _ _ _ Hx) as [_ [_ [r [Hr [Hsu [Hrid Hp]]]]]].
  destruct (expand_In _ _ _ Hjx)
    as [y [u [Hy [Hyid [Hu' [Husu [Hjid [Hjm [_ Hjs]]]]]]]]].
  exists r, y, u. simpl. repeat split; try assumption; congruence.
Qed.

(** X3. Every entry of every returned list comes from a prediction of the
    table, of a recording that has a metadata row with the entry's mbid, for
    a spark user that the user view maps to the row's [user_id]; its score is
    that prediction.  So a recording without metadata and a spark user
    without identity never show up. *)
Theorem process_recommendations_sound
  (eng : Engine) (cat : Catalog) (df : list recommendation.t) (limit : Z) :
  Forall (fun row =>
            Forall (fun entry =>
                      exists r y u,
                        In r df /\ In y (recording_view cat)
                        /\ In u (user_view cat)
                        /\ recording.recording_id y
                           = recommendation.recording_id r
                        /\ user.spark_user_id u
                           = recommendation.spark_user_id r
                        /\ user.user_id u = recs_row.user_id row
                        /\ rec.recording_mbid entry = recording.recording_mbid y
                        /\ rec.score entry = recommendation.prediction r)
                   (recs_row.recs row))
         (process_recommendations eng cat df limit).
Proof.
  apply Forall_forall. intros row Hrow. apply Forall_forall. intros entry Hentry.
  now apply (process_recommendations_entry eng cat df limit row entry).
Qed.

(** X4. With a limit below one [process_recommendations] returns no row at
    all: ranks start at one, so no row passes [rank <= limit]. *)
Theorem process_recommendations_limit_below_one
  (eng : Engine) (cat : Catalog) (df : list recommendation.t) (limit : Z) :
  limit < 1 -> process_recommendations eng cat df limit = [].
Proof.
  intro Hlimit. unfold process_recommendations.
  assert (Hnil : joined_rows eng cat df limit = []).
  { destruct (joined_rows eng cat df limit) as [|j t] eqn:E; [reflexivity|].
    exfalso. destruct (joined_rows_In eng cat df limit j) as [x [Hx [Hj Hr]]].
    - rewrite E. now left.
    - destruct (ranked_recommendation_In _ _ _ Hx) as [_ [Hrank _]].
      destruct (expand_In _ _ _ Hj) as [y [u [_ [_ [_ [_ [_ [_ [Hjr _]]]]]]]]].
      lia. }
  rewrite Hnil. unfold group_by_user_id. simpl. now rewrite shuffle_nil.
Qed.

Lemma process_recommendations_limit_below_one_witness :
  0 < 1
  /\ process_recommendations sample_engine sample_catalog_three
                             sample_predictions 0 = [].
Proof.
  split; [lia|].
  apply (process_recommendations_limit_below_one
           sample_engine sample_catalog_three sample_predictions 0).
  lia.
Defined.

(** X5. [process_recommendations] returns at most one row per [user_id]:
    the rows of a user, also of several spark users with that [user_id], are
    collected into one list. *)
Theorem process_recommendations_one_row_per_user
  (eng : Engine) (cat : Catalog) (df : list recommendation.t) (limit : Z) :
  NoDup (users_of (process_recommendations eng cat df limit)).
Proof. apply group_by_user_id_NoDup. Qed.

(** X6. Raising the limit loses nothing: with the same engine order, every
    user that has a row under [limit] has one under a larger limit, and the
    larger list holds every entry of the smaller one. *)
Theorem process_recommendations_limit_monotone
  (eng : Engine) (cat : Catalog) (df : list recommendation.t)
  (limit limit' : Z) (row : recs_row.t) :
  limit <= limit' ->
  In row (process_recommendations eng cat df limit) ->
  exists row', In row' (process_recommendations eng cat df limit')
               /\ recs_row.user_id row' = recs_row.user_id row
               /\ incl (recs_row.recs row) (recs_row.recs row').
Proof.
  intros Hle Hrow.
  assert (Hincl : incl (joined_rows eng cat df limit)
                       (joined_rows eng cat df limit')).
  { intros j Hj. unfold joined_rows in *. apply filter_In in Hj.
    destruct Hj as [Hj Hr]. apply filter_In. split; [exact Hj|].
    apply Z.leb_le in Hr. apply Z.leb_le. lia. }
  unfold process_recommendations in *.
  apply group_by_user_id_In in Hrow. destruct Hrow as [Hu Hrecs].
  exists (recs_row.mk (recs_row.user_id row)
            (recs_of_group eng (joined_rows eng cat df limit')
                           (recs_row.user_id row))).
  split; [|split; [reflexivity|]].
  - apply group_by_user_id_In. simpl. split; [|reflexivity].
    apply in_map_iff in Hu. destruct Hu as [j [Hj Hjin]].
    rewrite <- Hj. apply in_map. now apply Hincl.
  - simpl. rewrite Hrecs. intros entry Hentry.
    apply (Permutation_in _ (recs_of_group_perm _ _ _)) in Hentry.
    apply (Permutation_in _ (Permutation_sym (recs_of_group_perm _ _ _))).
    apply in_map_iff in Hentry. destruct Hentry as [j [<- Hj]].
    apply in_map. unfold group_rows in *. apply filter_In in Hj.
    destruct Hj as [Hj Hu']. apply filter_In. split; [now apply Hincl|exact Hu'].
Qed.

Lemma process_recommendations_limit_monotone_witness :
  1 <= 2
  /\ In (recs_row.mk 100 [rec.mk "A" 9 None])
        (process_recommendations sample_engine sample_catalog_three
                                 sample_predictions 1)
  /\ exists row',
       In row' (process_recommendations sample_engine sample_catalog_three
                                        sample_predictions 2)
       /\ recs_row.user_id row' = 100
       /\ incl [rec.mk "A" 9 None] (recs_row.recs row').
Proof.
  assert (H : In (recs_row.mk 100 [rec.mk "A" 9 None])
                 (process_recommendations sample_engine sample_catalog_three
                                          sample_predictions 1))
    by (vm_compute; tauto).
  split; [lia|]. split; [exact H|].
  apply (process_recommendations_limit_monotone
           sample_engine sample_catalog_three sample_predictions 1 2
           (recs_row.mk 100 [rec.mk "A" 9 None])); [lia|exact H].
Defined.

(** ** The listen history of an entry *)

Lemma discovery_matches_iff (x : ranked.t * string * Z)
  (d : recording_discovery.t) :
  discovery_matches x d = true
  <-> recording_discovery.user_id d = snd x
      /\ recording_discovery.recording_mbid d = snd (fst x).
Proof.
  unfold discovery_matches. rewrite andb_true_iff, Z.eqb_eq, String.eqb_eq.
  tauto.
Qed.

Lemma expand_latest (cat : Catalog) (x : ranked.t) (j : joined.t) :
  In j (expand cat x) ->
  match joined.latest_listened_at j with
  | Some t =>
      exists d, In d (recording_discovery_view cat)
                /\ recording_discovery.user_id d = joined.user_id j
                /\ recording_discovery.recording_mbid d = joined.recording_mbid j
                /\ recording_discovery.latest_listened_at d = t
  | None =>
      forall d, In d (recording_discovery_view cat) ->
                recording_discovery.user_id d = joined.user_id j ->
                recording_discovery.recording_mbid d <> joined.recording_mbid j
  end.
Proof.
  unfold expand, join_discovery, left_join. intro Hj.
  apply in_flat_map in Hj. destruct Hj as [xmu [_ Hj]].
  destruct (filter (discovery_matches xmu) (recording_discovery_view cat))
    as [|d0 ds] eqn:E.
  - destruct Hj as [<-|[]]. simpl. intros d Hd Hu Hm.
    assert (Hin : In d (filter (discovery_matches xmu)
                               (recording_discovery_view cat))).
    { apply filter_In. split; [exact Hd|]. now apply discovery_matches_iff. }
    rewrite E in Hin. exact Hin.
  - apply in_map_iff in Hj. destruct Hj as [d [<- Hd]]. simpl.
    rewrite <- E in Hd. apply filter_In in Hd. destruct Hd as [Hd Hm].
    apply discovery_matches_iff in Hm. exists d. tauto.
Qed.

(** X7. An entry carries a [latest_listened_at] exactly when the listen
    history has a row for the row's user and the entry's recording: the text
    is the formatted timestamp of such a row, and an entry without it has no
    such row. *)
Theorem process_recommendations_latest_listened_at
  (eng : Engine) (cat : Catalog) (df : list recommendation.t) (limit : Z) :
  Forall (fun row =>
            Forall (fun entry =>
                      match rec.latest_listened_at entry with
                      | Some text =>
                          exists d,
                            In d (recording_discovery_view cat)
                            /\ recording_discovery.user_id d
                               = recs_row.user_id row
                            /\ recording_discovery.recording_mbid d
                               = rec.recording_mbid entry
                            /\ text = date_format eng
                                        (recording_discovery.latest_listened_at d)
                      | None =>
                          forall d,
                            In d (recording_discovery_view cat) ->
                            recording_discovery.user_id d
                            = recs_row.user_id row ->
                            recording_discovery.recording_mbid d
                            <> rec.recording_mbid entry
                      end)
                   (recs_row.recs row))
         (process_recommendations eng cat df limit).
Proof.
  apply Forall_forall. intros row Hrow. apply Forall_forall. intros entry Hentry.
  destruct (process_recommendations_In _ _ _ _ _ _ Hrow Hentry)
    as [j [Hj [Hu ->]]].
  destruct (joined_rows_In _ _ _ _ _ Hj) as [x [_ [Hjx _]]].
  pose proof (expand_latest _ _ _ Hjx) as Hl. simpl.
  destruct (joined.latest_listened_at j) as [t|]; simpl.
  - destruct Hl as [d [Hd [Hdu [Hdm Hdt]]]]. exists d.
    repeat split; congruence.
  - intros d Hd Hdu. apply Hl; congruence.
Qed.

(** ** The most recent model *)

(** X8. [get_most_recent_model_meta] returns the id and the report file of
    a metadata row that no row is more recent than; it raises [IndexError]
    when the metadata holds no row, and what reading the file raises. *)
Theorem get_most_recent_model_meta_most_recent (w : World) (eng : Engine) :
  match get_most_recent_model_meta w eng with
  | Ok (model_id, model_html_file) =>
      exists rows meta,
        read_files_from_HDFS w RECOMMENDATION_RECORDING_MODEL_METADATA = Ok rows
        /\ In meta rows
        /\ model_metadata.model_id meta = model_id
        /\ model_metadata.model_html_file meta = model_html_file
        /\ forall m, In m rows ->
                     model_metadata.model_created m
                     <= model_metadata.model_created meta
  | Raise e =>
      read_files_from_HDFS w RECOMMENDATION_RECORDING_MODEL_METADATA = Raise e
      \/ (read_files_from_HDFS w RECOMMENDATION_RECORDING_MODEL_METADATA = Ok []
          /\ e = IndexError)
  end.
Proof.
  unfold get_most_recent_model_meta.
  destruct (read_files_from_HDFS w RECOMMENDATION_RECORDING_MODEL_METADATA)
    as [rows|e]; simpl; [|now left].
  match goal with
  | |- context [sort_by ?before ?shuffled] =>
      set (sorted := sort_by before shuffled);
      assert (Hperm : Permutation sorted rows)
        by (etransitivity; [apply sort_by_perm|apply shuffle_perm]);
      assert (Hsorted : StronglySorted
                          (fun a b : model_metadata.t =>
                             model_metadata.model_created b
                             <= model_metadata.model_created a) sorted)
        by (apply Sorted_StronglySorted; [intros a b c Hab Hbc; lia|];
            apply sort_by_Sorted; intros x y H;
            [now apply Z.leb_le in H|apply Z.leb_gt in H; lia]);
      destruct sorted as [|meta t]; simpl
  end.
  - right. apply Permutation_nil in Hperm. now subst.
  - exists rows, meta. split; [reflexivity|].
    split; [apply (Permutation_in _ Hperm); now left|].
    split; [reflexivity|]. split; [reflexivity|].
    intros m Hm. apply (Permutation_in _ (Permutation_sym Hperm)) in Hm.
    inversion Hsorted as [|? ? _ Hall]; subst.
    destruct Hm as [<-|Hm]; [lia|].
    rewrite Forall_forall in Hall. now apply Hall.
Qed.

(** ** The active users *)

(** The candidates a run is about: all of them without requested users, and
    those of the requested users otherwise. *)
Lemma get_user_name_and_user_id_eq (df : list candidate.t) (users : list Z) :
  get_user_name_and_user_id df users
  = match nodup user_eq_dec
            (map select_user
                 (match users with
                  | [] => df
                  | _ :: _ => filter (fun c => isin (candidate.user_id c) users) df
                  end)) with
    | [] => Raise (EmptyDataframeExcpetion "No active users found!")
    | u :: l => Ok (u :: l)
    end.
Proof.
  unfold get_user_name_and_user_id. destruct users as [|v vs]; simpl List.length;
    simpl Nat.eqb; cbv iota; destruct (nodup user_eq_dec _); reflexivity.
Qed.

Lemma nodup_nil_inv {A : Type} (dec : forall x y : A, {x = y} + {x <> y})
  (l : list A) : nodup dec l = [] -> l = [].
Proof.
  destruct l as [|x t]; [reflexivity|]. intro H. exfalso.
  assert (Hin : In x (nodup dec (x :: t))) by (apply nodup_In; now left).
  rewrite H in Hin. exact Hin.
Qed.

Lemma requested_candidates_In (df : list candidate.t) (users : list Z)
  (c : candidate.t) :
  In c (match users with
        | [] => df
        | _ :: _ => filter (fun c => isin (candidate.user_id c) users) df
        end)
  <-> In c df /\ (users = [] \/ In (candidate.user_id c) users).
Proof.
  destruct users as [|v vs].
  - intuition.
  - rewrite filter_In, isin_In.
    destruct (in_dec Z.eq_dec (candidate.user_id c) (v :: vs)).
    + intuition.
    + intuition; discriminate.
Qed.

Lemma get_user_name_and_user_id_In (df : list candidate.t) (users : list Z)
  (users_df : list user.t) (u : user.t) :
  get_user_name_and_user_id df users = Ok users_df ->
  (In u users_df
   <-> exists c, In c df /\ select_user c = u
                 /\ (users = [] \/ In (candidate.user_id c) users)).
Proof.
  rewrite get_user_name_and_user_id_eq.
  destruct (nodup user_eq_dec _) as [|u0 l] eqn:E; [discriminate|].
  intros [= <-]. rewrite <- E, nodup_In, in_map_iff.
  split; intros [c [H1 H2]]; exists c.
  - apply requested_candidates_In in H2. tauto.
  - split; [tauto|]. apply requested_candidates_In. tauto.
Qed.

(** X9. [get_user_name_and_user_id] returns the distinct
    [(spark_user_id, user_id)] pairs of the candidates of the requested
    users (of all candidates when none is requested), each pair once and at
    least one pair; it raises [EmptyDataframeExcpetion] when there is no such
    candidate. *)
Theorem get_user_name_and_user_id_distinct_pairs
  (df : list candidate.t) (users : list Z) :
  match get_user_name_and_user_id df users with
  | Ok users_df =>
      users_df <> [] /\ NoDup users_df
      /\ forall u, In u users_df
                   <-> exists c, In c df /\ select_user c = u
                                 /\ (users = [] \/ In (candidate.user_id c) users)
  | Raise e =>
      e = EmptyDataframeExcpetion "No active users found!"
      /\ forall c, In c df ->
                   users <> [] /\ ~ In (candidate.user_id c) users
  end.
Proof.
  destruct (get_user_name_and_user_id df users) as [users_df|e] eqn:E.
  - split; [|split].
    + rewrite get_user_name_and_user_id_eq in E.
      destruct (nodup user_eq_dec _); [discriminate|]. now injection E as <-.
    + rewrite get_user_name_and_user_id_eq in E.
      pose proof (NoDup_nodup user_eq_dec
        (map select_user
             (match users with
              | [] => df
              | _ :: _ => filter (fun c => isin (candidate.user_id c) users) df
              end))) as Hnd.
      destruct (nodup user_eq_dec _); [discriminate|]. now injection E as <-.
    + intro u. now apply get_user_name_and_user_id_In.
  - rewrite get_user_name_and_user_id_eq in E.
    destruct (nodup user_eq_dec _) as [|u0 l] eqn:En; [|discriminate].
    split; [now injection E as <-|].
    apply nodup_nil_inv, map_eq_nil in En. intros c Hc.
    assert (Hnot : ~ (In c df /\ (users = [] \/ In (candidate.user_id c) users))).
    { intro H. apply requested_candidates_In in H. rewrite En in H. exact H. }
    split.
    + intros ->. apply Hnot. auto.
    + intro Hin. apply Hnot. auto.
Qed.

(** X10. On one candidate set the two emptiness tests agree: there are
    active users exactly when the restricted candidate set has a row.  So in
    [main] the top-artist candidate set, which gives the active users, never
    raises [Empty Candidate sets!]. *)
Theorem active_users_iff_candidates (df : list candidate.t) (users : list Z) :
  (exists users_df, get_user_name_and_user_id df users = Ok users_df)
  <-> (exists candidate_subset,
         get_candidate_set_rdd_for_user df users = Ok candidate_subset).
Proof.
  rewrite get_user_name_and_user_id_eq. unfold get_candidate_set_rdd_for_user.
  destruct users as [|v vs].
  - destruct df as [|c t].
    + simpl. split; intros [x H]; discriminate.
    + split; intros _.
      * simpl. eexists. reflexivity.
      * destruct (nodup user_eq_dec (map select_user (c :: t))) as [|u l] eqn:E.
        -- apply nodup_nil_inv in E. discriminate.
        -- eexists. reflexivity.
  - destruct (filter (fun c => isin (candidate.user_id c) (v :: vs)) df)
      as [|c t].
    + simpl. split; intros [x H]; discriminate.
    + split; intros _.
      * simpl. eexists. reflexivity.
      * destruct (nodup user_eq_dec (map select_user (c :: t))) as [|u l] eqn:E.
        -- apply nodup_nil_inv in E. discriminate.
        -- eexists. reflexivity.
Qed.

(** ** A whole run *)

(** A run that succeeds, with the values of its stages. *)
Lemma main_ok_run
  (w : World) (eng : Engine) (k_top k_similar k_raw : Z) (users : list Z)
  (msgs : list message) :
  main w eng k_top k_similar k_raw users = Ok msgs ->
  exists (recordings : list recording.t) (top : list candidate.t)
         (discovery : list recording_discovery.t) (users_df : list user.t)
         (model_id model_html_file : string)
         (top_df similar_df raw_df : list recommendation.t) (total_time : Q),
    read_files_from_HDFS w RECOMMENDATION_RECORDING_TOP_ARTIST_CANDIDATE_SET
    = Ok top
    /\ get_user_name_and_user_id top users = Ok users_df
    /\ msgs = create_messages eng model_id model_html_file
                (process_recommendations
                   eng {| recording_view := recordings; user_view := users_df;
                          recording_discovery_view := discovery |} top_df k_top)
                (process_recommendations
                   eng {| recording_view := recordings; user_view := users_df;
                          recording_discovery_view := discovery |}
                   similar_df k_similar)
                (process_recommendations
                   eng {| recording_view := recordings; user_view := users_df;
                          recording_discovery_view := discovery |} raw_df k_raw)
                (Z.of_nat (List.length users_df)) total_time.
Proof.
  unfold main.
  ok_stage session. ok_stage recordings. ok_stage top. ok_stage similar.
  ok_stage discovery.
  destruct (get_most_recent_model_meta w eng) as [[mid mf]|]; simpl bind;
    [|discriminate].
  ok_stage model. ok_stage users_df. ok_stage ta. ok_stage sa.
  apply get_recommendations_for_candidate_set_ok_inv in Eta, Esa.
  destruct Eta as [cs1 [_ [_ ->]]], Esa as [cs2 [_ [_ ->]]].
  unfold get_raw_recommendations. simpl bind. intros [= <-].
  exists recordings, top, discovery, users_df, mid, mf.
  eexists _, _, _, _. repeat split; try reflexivity; assumption.
Qed.

(** The users of the returned rows are users of the user view. *)
Lemma process_recommendations_users (eng : Engine) (cat : Catalog)
  (df : list recommendation.t) (limit : Z) :
  incl (users_of (process_recommendations eng cat df limit))
       (map user.user_id (user_view cat)).
Proof.
  intros uid Hin. unfold users_of in Hin. apply in_map_iff in Hin.
  destruct Hin as [row [<- Hrow]]. unfold process_recommendations in Hrow.
  apply group_by_user_id_In in Hrow. destruct Hrow as [Hu _].
  apply in_map_iff in Hu. destruct Hu as [j [<- Hj]].
  destruct (joined_rows_In _ _ _ _ _ Hj) as [x [_ [Hjx _]]].
  destruct (expand_In _ _ _ Hjx) as [y [u [_ [_ [Hu [_ [Hjid _]]]]]]].
  rewrite Hjid. now apply in_map.
Qed.

Lemma process_recommendations_row_count (eng : Engine) (cat : Catalog)
  (df : list recommendation.t) (limit : Z) :
  0 <= Z.of_nat (List.length (process_recommendations eng cat df limit))
    <= Z.of_nat (List.length (user_view cat)).
Proof.
  split; [lia|]. apply inj_le.
  rewrite <- (length_map recs_row.user_id), <- (length_map user.user_id).
  apply NoDup_incl_length.
  - apply group_by_user_id_NoDup.
  - apply process_recommendations_users.
Qed.

(** X11. A run that succeeds ends with a mail message whose
    [active_user_count] is at least one and whose three user counts are each
    at most [active_user_count]. *)
Theorem main_counts_within_active_users
  (w : World) (eng : Engine) (k_top k_similar k_raw : Z) (users : list Z)
  (msgs : list message) :
  main w eng k_top k_similar k_raw users = Ok msgs ->
  exists (bundles : list message) (active top_artist similar_artist raw : Z)
         (total_time : string),
    msgs = bundles
           ++ [cf_recommendations_recording_mail
                 active top_artist similar_artist raw total_time]
    /\ 1 <= active
    /\ 0 <= top_artist <= active
    /\ 0 <= similar_artist <= active
    /\ 0 <= raw <= active.
Proof.
  intro Hmain. destruct (main_ok_run _ _ _ _ _ _ _ Hmain)
    as [recordings [top [discovery [users_df [mid [mf [d1 [d2 [d3 [tt
        [_ [Husers ->]]]]]]]]]]]].
  rewrite create_messages_eq. do 6 eexists. split; [reflexivity|].
  split.
  - rewrite get_user_name_and_user_id_eq in Husers.
    destruct (nodup user_eq_dec _); [discriminate|].
    injection Husers as <-. simpl List.length. lia.
  - repeat split;
      apply (process_recommendations_row_count
               eng {| recording_view := recordings; user_view := users_df;
                      recording_discovery_view := discovery |}).
Qed.

Lemma main_counts_within_active_users_witness :
  main (sample_world [candidate.mk 1 11 100]) sample_engine 1 2 2 []
  = Ok [cf_recommendations_recording_recommendations
          100 [rec.mk "B" 11 None] [rec.mk "B" 11 None] []
          "m" "http://michael.metabrainz.org/m.html";
        cf_recommendations_recording_mail 1 1 1 0 "0.00"]
  /\ exists (bundles : list message) (active top_artist similar_artist raw : Z)
            (total_time : string),
       [cf_recommendations_recording_recommendations
          100 [rec.mk "B" 11 None] [rec.mk "B" 11 None] []
          "m" "http://michael.metabrainz.org/m.html";
        cf_recommendations_recording_mail 1 1 1 0 "0.00"]
       = bundles
         ++ [cf_recommendations_recording_mail
               active top_artist similar_artist raw total_time]
       /\ 1 <= active
       /\ 0 <= top_artist <= active
       /\ 0 <= similar_artist <= active
       /\ 0 <= raw <= active.
Proof.
  split; [reflexivity|].
  apply (main_counts_within_active_users
           (sample_world [candidate.mk 1 11 100]) sample_engine 1 2 2 []).
  reflexivity.
Defined.

(** X12. In a run that succeeds every per-user message is for a user of the
    top-artist candidate set, and for a requested user when users are
    requested: no source brings in a user that is not active. *)
Theorem main_bundles_for_active_users
  (w : World) (eng : Engine) (k_top k_similar k_raw : Z) (users : list Z)
  (msgs : list message) :
  main w eng k_top k_similar k_raw users = Ok msgs ->
  exists top : list candidate.t,
    read_files_from_HDFS w RECOMMENDATION_RECORDING_TOP_ARTIST_CANDIDATE_SET
    = Ok top
    /\ forall (m : message) (u : Z),
         In m msgs -> message_user_id m = Some u ->
         exists c, In c top /\ candidate.user_id c = u
                   /\ (users = [] \/ In u users).
Proof.
  intro Hmain. destruct (main_ok_run _ _ _ _ _ _ _ Hmain)
    as [recordings [top [discovery [users_df [mid [mf [d1 [d2 [d3 [tt
        [Htop [Husers ->]]]]]]]]]]]].
  exists top. split; [exact Htop|]. intros m u Hm Hu.
  rewrite create_messages_eq in Hm. apply in_app_or in Hm.
  destruct Hm as [Hm|[<-|[]]]; [|discriminate].
  apply in_map_iff in Hm. destruct Hm as [[k b] [<- Hkb]].
  simpl in Hu. injection Hu as ->.
  assert (Hkey : In u (keys (user_rec_of
    (process_recommendations
       eng {| recording_view := recordings; user_view := users_df;
              recording_discovery_view := discovery |} d1 k_top)
    (process_recommendations
       eng {| recording_view := recordings; user_view := users_df;
              recording_discovery_view := discovery |} d2 k_similar)
    (process_recommendations
       eng {| recording_view := recordings; user_view := users_df;
              recording_discovery_view := discovery |} d3 k_raw)))).
  { unfold keys. apply in_map_iff. exists (u, b). auto. }
  apply user_rec_of_keys in Hkey.
  assert (Hview : In u (map user.user_id users_df)).
  { destruct Hkey as [H|[H|H]];
      apply process_recommendations_users in H; exact H. }
  apply in_map_iff in Hview. destruct Hview as [usr [<- Husr]].
  apply (get_user_name_and_user_id_In _ _ _ usr Husers) in Husr.
  destruct Husr as [c [Hc [<- Hreq]]]. exists c. simpl. auto.
Qed.

Lemma main_bundles_for_active_users_witness :
  main (sample_world [candidate.mk 1 11 100]) sample_engine 1 2 2 []
  = Ok [cf_recommendations_recording_recommendations
          100 [rec.mk "B" 11 None] [rec.mk "B" 11 None] []
          "m" "http://michael.metabrainz.org/m.html";
        cf_recommendations_recording_mail 1 1 1 0 "0.00"]
  /\ exists top : list candidate.t,
       read_files_from_HDFS (sample_world [candidate.mk 1 11 100])
                            RECOMMENDATION_RECORDING_TOP_ARTIST_CANDIDATE_SET
       = Ok top
       /\ forall (m : message) (u : Z),
            In m [cf_recommendations_recording_recommendations
                    100 [rec.mk "B" 11 None] [rec.mk "B" 11 None] []
                    "m" "http://michael.metabrainz.org/m.html";
                  cf_recommendations_recording_mail 1 1 1 0 "0.00"] ->
            message_user_id m = Some u ->
            exists c, In c top /\ candidate.user_id c = u
                      /\ (@nil Z = [] \/ In u []).
Proof.
  split; [reflexivity|].
  apply (main_bundles_for_active_users
           (sample_world [candidate.mk 1 11 100]) sample_engine 1 2 2 []).
  reflexivity.
Defined.

Lemma restrict_spec_requested (df : list candidate.t) (users : list Z) :
  restrict_spec df users
  = map select_pair
        (match users with
         | [] => df
         | _ :: _ => filter (fun c => isin (candidate.user_id c) users) df
         end).
Proof.
  unfold restrict_spec. destruct users as [|v vs]; [reflexivity|].
  now rewrite (filter_ext _ _ (fun c => isin_In (candidate.user_id c) (v :: vs))).
Qed.

(** X13. When the session, the five datasets and the model are there but the
    top-artist candidate set has no row for the requested users, the run
    ends with [EmptyDataframeExcpetion] and the text [No active users found!]. *)
Theorem main_no_active_users
  (w : World) (eng : Engine) (k_top k_similar k_raw : Z) (users : list Z)
  (u : unit) (recordings : list recording.t) (top similar : list candidate.t)
  (discovery : list recording_discovery.t)
  (model_id model_html_file : string) (model : ALSModel) :
  init_spark_session w "Recommendations" = Ok u ->
  read_files_from_HDFS w RECOMMENDATION_RECORDINGS_DATAFRAME = Ok recordings ->
  read_files_from_HDFS w RECOMMENDATION_RECORDING_TOP_ARTIST_CANDIDATE_SET
  = Ok top ->
  read_files_from_HDFS w RECOMMENDATION_RECORDING_SIMILAR_ARTIST_CANDIDATE_SET
  = Ok similar ->
  read_files_from_HDFS w RECORDING_DISCOVERY = Ok discovery ->
  get_most_recent_model_meta w eng = Ok (model_id, model_html_file) ->
  load_model w model_id = Ok model ->
  restrict_spec top users = [] ->
  main w eng k_top k_similar k_raw users
  = Raise (EmptyDataframeExcpetion "No active users found!").
Proof.
  intros Hs Hr Ht Hsim Hd Hm Hl Hempty. unfold main.
  rewrite Hs. simpl bind. rewrite Hr. simpl bind. rewrite Ht. simpl bind.
  rewrite Hsim. simpl bind. rewrite Hd. simpl bind. rewrite Hm. simpl bind.
  rewrite Hl. simpl bind.
  rewrite get_user_name_and_user_id_eq.
  rewrite restrict_spec_requested in Hempty. apply map_eq_nil in Hempty.
  now rewrite Hempty.
Qed.

Lemma main_no_active_users_witness :
  init_spark_session (sample_world []) "Recommendations" = Ok tt
  /\ read_files_from_HDFS (sample_world []) RECOMMENDATION_RECORDINGS_DATAFRAME
     = Ok [recording.mk 10 "A"; recording.mk 11 "B"]
  /\ read_files_from_HDFS (sample_world [])
                          RECOMMENDATION_RECORDING_TOP_ARTIST_CANDIDATE_SET
     = Ok [candidate.mk 1 10 100; candidate.mk 1 11 100]
  /\ restrict_spec [candidate.mk 1 10 100; candidate.mk 1 11 100] [999] = []
  /\ main (sample_world []) sample_engine 2 2 2 [999]
     = Raise (EmptyDataframeExcpetion "No active users found!").
Proof.
  split; [reflexivity|]. split; [reflexivity|]. split; [reflexivity|].
  split; [reflexivity|].
  apply (main_no_active_users
           (sample_world []) sample_engine 2 2 2 [999] tt
           [recording.mk 10 "A"; recording.mk 11 "B"]
           [candidate.mk 1 10 100; candidate.mk 1 11 100] [] []
           "m" "m.html" sample_model); reflexivity.
Defined.

(** ** The raw path *)

Lemma expanded_recs_In (raw_recommendations : list raw_recommendation.t)
  (r : recommendation.t) :
  In r (expanded_recs raw_recommendations) ->
  exists row pair,
    In row raw_recommendations
    /\ In pair (raw_recommendation.recommendations row)
    /\ recommendation.spark_user_id r = raw_recommendation.spark_user_id row
    /\ recommendation.recording_id r = fst pair
    /\ recommendation.prediction r = snd pair.
Proof.
  unfold expanded_recs. intro Hr. apply in_flat_map in Hr.
  destruct Hr as [row [Hrow Hr]]. apply in_map_iff in Hr.
  destruct Hr as [pair [<- Hpair]]. exists row, pair. simpl. auto.
Qed.

(** X14. [get_raw_recommendations] never raises, and every entry it returns
    is an entry of the nested list the model gave for a spark user: that
    spark user is mapped by the user view to the row's [user_id], the
    recording has a metadata row with the entry's mbid, and the score is the
    model's rating. *)
Theorem get_raw_recommendations_sound
  (eng : Engine) (cat : Catalog) (model : ALSModel) (limit : Z)
  (users_df : list user.t) :
  match get_raw_recommendations eng cat model limit users_df with
  | Ok recs_df =>
      Forall (fun row =>
                Forall (fun entry =>
                          exists nested pair y u,
                            In nested (recommendForUserSubset
                                         model
                                         (map user.spark_user_id users_df) limit)
                            /\ In pair (raw_recommendation.recommendations nested)
                            /\ In y (recording_view cat)
                            /\ In u (user_view cat)
                            /\ recording.recording_id y = fst pair
                            /\ user.spark_user_id u
                               = raw_recommendation.spark_user_id nested
                            /\ user.user_id u = recs_row.user_id row
                            /\ rec.recording_mbid entry
                               = recording.recording_mbid y
                            /\ rec.score entry = snd pair)
                       (recs_row.recs row))
             recs_df
  | Raise _ => False
  end.
Proof.
  unfold get_raw_recommendations.
  apply Forall_forall. intros row Hrow. apply Forall_forall. intros entry Hentry.
  destruct (process_recommendations_entry _ _ _ _ _ _ Hrow Hentry)
    as [r [y [u [Hr [Hy [Hu [Hrid [Hsu [Huid [Hm Hs]]]]]]]]]].
  destruct (expanded_recs_In _ _ Hr) as [nested [pair [Hn [Hp [Hnsu [Hnrid Hnp]]]]]].
  exists nested, pair, y, u. repeat split; try assumption; congruence.
Qed.

(** ** Scores as the floats they are *)

Lemma float_of_score_position (x : float32) :
  (forall v, x = number v -> v <= infinity_position) ->
  float_of_score (position x) = x.
Proof.
  intro Hvalid. unfold float_of_score, position, nan_position.
  destruct x as [|v].
  - destruct (Z.ltb_spec infinity_position (infinity_position + 1));
      [reflexivity|lia].
  - specialize (Hvalid v eq_refl).
    destruct (Z.ltb_spec infinity_position v); [lia|reflexivity].
Qed.

Lemma scores_spark_ge (p q : Z) :
  q <= p -> spark_ge (float_of_score p) (float_of_score q) = true.
Proof.
  intro Hle. unfold float_of_score.
  destruct (Z.ltb_spec infinity_position p); [reflexivity|].
  destruct (Z.ltb_spec infinity_position q); [lia|].
  simpl. now apply Z.leb_le.
Qed.

Lemma scores_float_ge (p q : Z) :
  q <= p -> float_of_score p <> NaN ->
  float_ge (float_of_score p) (float_of_score q) = true.
Proof.
  intros Hle Hnan. unfold float_of_score in *.
  destruct (Z.ltb_spec infinity_position p); [congruence|].
  destruct (Z.ltb_spec infinity_position q); [lia|].
  simpl. now apply Z.leb_le.
Qed.

(** C2, as the claim states it, fails: a prediction that is NaN sorts first,
    and [NaN >= 478] is false on floats. *)
Lemma process_recommendations_scores_counterexample :
  process_recommendations sample_engine sample_catalog sample_nan_predictions 2
  = [recs_row.mk 100 [rec.mk "A" nan_position None; rec.mk "B" 478 None]]
  /\ float_of_score nan_position = NaN
  /\ float_of_score 478 = number 478
  /\ float_ge NaN (number 478) = false
  /\ ~ non_increasing_float
         [rec.mk "A" nan_position None; rec.mk "B" 478 None].
Proof.
  split; [vm_compute; reflexivity|]. split; [vm_compute; reflexivity|].
  split; [vm_compute; reflexivity|]. split; [reflexivity|].
  intro H.
  specialize (H 0%nat (rec.mk "A" nan_position None) (rec.mk "B" 478 None)
                eq_refl eq_refl).
  vm_compute in H. discriminate.
Qed.

(** C2, amended. In every list returned by [process_recommendations] the
    scores are non-increasing in the order the query sorts by, Spark SQL's
    order on floats with NaN above every number: a NaN score is never behind
    a number, and [list[i].score >= list[i+1].score] holds on the floats for
    every adjacent pair whose first score is not NaN, so for all pairs of a
    list without NaN. *)
Theorem process_recommendations_scores_sorted_for_spark
  (eng : Engine) (cat : Catalog) (df : list recommendation.t) (limit : Z) :
  Forall (fun row => non_increasing_for_spark (recs_row.recs row))
         (process_recommendations eng cat df limit).
Proof.
  pose proof (process_recommendations_scores_non_increasing eng cat df limit)
    as Hpos.
  rewrite Forall_forall in Hpos. apply Forall_forall. intros row Hrow.
  intros i a b Ha Hb. pose proof (Hpos row Hrow i a b Ha Hb) as Hge.
  split.
  - apply scores_spark_ge. lia.
  - intro Hnan. apply scores_float_ge; [lia|exact Hnan].
Qed.

Example process_recommendations_nan_first :
  non_increasing_for_spark
    [rec.mk "A" nan_position None; rec.mk "B" 478 None]
  /\ non_increasing_float [rec.mk "A" 9 None; rec.mk "B" 5 None].
Proof.
  split; intros i a b Ha Hb;
    (destruct i as [|[|i]]; simpl in Ha, Hb;
     [|discriminate|destruct i; discriminate]);
    injection Ha as <-; injection Hb as <-.
  - split; [reflexivity|]. intro H. exfalso. apply H. vm_compute. reflexivity.
  - vm_compute. reflexivity.
Qed.

(** X1. Among the ranked rows of one spark user a smaller rank never goes
    with a score that the [ORDER BY] of the window puts lower (Spark's order
    on floats, NaN above every number), whatever the engine order; so a row
    that [rank <= limit] keeps and whose score is not NaN has a score [>=],
    on the floats, that of every row of that user the limit drops. *)
Theorem ranked_recommendation_rank_order_float
  (eng : Engine) (df : list recommendation.t) (x y : ranked.t) :
  In x (ranked_recommendation eng df) ->
  In y (ranked_recommendation eng df) ->
  ranked.spark_user_id x = ranked.spark_user_id y ->
  ranked.rank x < ranked.rank y ->
  spark_ge (float_of_score (ranked.score x)) (float_of_score (ranked.score y))
  = true
  /\ (float_of_score (ranked.score x) <> NaN ->
      float_ge (float_of_score (ranked.score x))
               (float_of_score (ranked.score y)) = true).
Proof.
  intros Hx Hy Hu Hlt.
  pose proof (ranked_recommendation_rank_order eng df x y Hx Hy Hu Hlt) as Hle.
  split.
  - now apply scores_spark_ge.
  - intro Hnan. now apply scores_float_ge.
Qed.

Lemma ranked_recommendation_rank_order_float_witness :
  In (ranked.mk 1 10 nan_position 1)
     (ranked_recommendation sample_engine sample_nan_predictions)
  /\ In (ranked.mk 1 11 478 2)
        (ranked_recommendation sample_engine sample_nan_predictions)
  /\ spark_ge (float_of_score nan_position) (float_of_score 478) = true.
Proof.
  assert (Hx : In (ranked.mk 1 10 nan_position 1)
                  (ranked_recommendation sample_engine sample_nan_predictions))
    by (vm_compute; tauto).
  assert (Hy : In (ranked.mk 1 11 478 2)
                  (ranked_recommendation sample_engine sample_nan_predictions))
    by (vm_compute; tauto).
  split; [exact Hx|]. split; [exact Hy|].
  apply (ranked_recommendation_rank_order_float
           sample_engine sample_nan_predictions
           (ranked.mk 1 10 nan_position 1) (ranked.mk 1 11 478 2) Hx Hy);
    [reflexivity|simpl; lia].
Defined.
